(** * st_proxy: the forwarding pipeline of [main.go]

    A shallow embedding of the single-host reverse proxy of [main.go]:
    the [Director] closure (path rewriting and header sanitising), the
    [Transport] literal, the [ModifyResponse] closure (response
    inspection) and the [ErrorHandler] closure (error classification).

    Go strings are byte sequences; they are modelled by [string] (a list
    of 8-bit [ascii]).  [http.Header] is a [map[string][]string]; it is
    modelled by [gmap string (list string)].  The closures mutate the
    request they receive and write to the process logger; both are
    threaded through a small state monad.  The copy of the program that
    logs through [logrus] has the same closures, statement for
    statement, and differs only in the logger it writes to.

    The standard library is modelled as far as the closures call it
    ([strings], header canonicalisation, [http.Error]); [backend], the
    value of [url.Parse(backendURL)], is a parameter.  [Director] runs
    inside [httputil.ReverseProxy.ServeHTTP]; what that method does to
    the header of the outbound request after [Director] has returned
    is modelled in [httputil], and the statements say which of the two
    they are about: the request as [Director] leaves it, or the header
    handed to the transport. *)

From Stdlib Require Import ZArith Ascii DecimalString.
From stdpp Require Import base option list strings gmap fin_maps.

Local Open Scope Z_scope.

(** ** The [strings] package *)

Module strings.

(** [strings.HasPrefix(s, prefix)]:
    [len(s) >= len(prefix) && s[:len(prefix)] == prefix]. *)
Fixpoint HasPrefix (s prefix : string) {struct prefix} : bool :=
  match prefix, s with
  | EmptyString, _ => true
  | String _ _, EmptyString => false
  | String c prefix', String d s' =>
      if Ascii.eqb c d then HasPrefix s' prefix' else false
  end.

(** [s[n:]] for [n <= len(s)]. *)
Fixpoint slice_from (n : nat) (s : string) : string :=
  match n, s with
  | O, _ => s
  | S _, EmptyString => EmptyString
  | S n', String _ s' => slice_from n' s'
  end.

(** [strings.TrimPrefix(s, prefix)]: [s] without the leading [prefix];
    [s] itself when it does not start with [prefix]. *)
Definition TrimPrefix (s prefix : string) : string :=
  if HasPrefix s prefix then slice_from (String.length prefix) s else s.

(** [strings.HasSuffix(s, suffix)]:
    [len(s) >= len(suffix) && s[len(s)-len(suffix):] == suffix]. *)
Definition HasSuffix (s suffix : string) : bool :=
  (String.length suffix <=? String.length s)%nat
  && String.eqb (slice_from (String.length s - String.length suffix) s) suffix.

(** [strings.Contains(s, substr)]: [substr] occurs at some offset of [s]. *)
Fixpoint Contains (s substr : string) : bool :=
  HasPrefix s substr ||
  match s with
  | EmptyString => false
  | String _ s' => Contains s' substr
  end.

(** [strings.Split(s, sep)] for a separator of one byte. *)
Fixpoint Split (s : string) (sep : ascii) : list string :=
  match s with
  | EmptyString => [EmptyString]
  | String c s' =>
      if Ascii.eqb c sep then EmptyString :: Split s' sep
      else match Split s' sep with
           | [] => [String c EmptyString]
           | piece :: pieces => String c piece :: pieces
           end
  end.

(** [strings.Join(elems, sep)]. *)
Fixpoint Join (elems : list string) (sep : string) : string :=
  match elems with
  | [] => EmptyString
  | [e] => e
  | e :: elems' => e +:+ sep +:+ Join elems' sep
  end.

End strings.

(** ** [net/textproto]: canonical header keys *)

Module textproto.

Definition byte_in (lo hi : nat) (c : ascii) : bool :=
  let n := nat_of_ascii c in ((lo <=? n) && (n <=? hi))%nat.

Definition is_lower : ascii → bool := byte_in 97 122.
Definition is_upper : ascii → bool := byte_in 65 90.
Definition is_digit : ascii → bool := byte_in 48 57.

(** ['a' - 'A']. *)
Definition toLower : nat := 32.

(** The [tchar] table of RFC 7230: letters, digits and the fifteen
    punctuation bytes allowed in a field name. *)
Definition validHeaderFieldByte (c : ascii) : bool :=
  is_lower c || is_upper c || is_digit c
  || bool_decide (c ∈ ["!"; "#"; "$"; "%"; "&"; "'"; "*"; "+"; "-"; ".";
                       "^"; "_"; "`"; "|"; "~"]%char).

Fixpoint all_bytes (p : ascii → bool) (s : string) : bool :=
  match s with
  | EmptyString => true
  | String c s' => p c && all_bytes p s'
  end.

(** The casing loop of [canonicalMIMEHeaderKey]: upper case for the
    first letter and for a letter after each dash, lower case for the
    other letters. *)
Fixpoint canonicalCase (upper : bool) (a : string) : string :=
  match a with
  | EmptyString => EmptyString
  | String c a' =>
      let c' :=
        if upper && is_lower c then ascii_of_nat (nat_of_ascii c - toLower)
        else if negb upper && is_upper c then ascii_of_nat (nat_of_ascii c + toLower)
        else c in
      String c' (canonicalCase (Ascii.eqb c' "-") a')
  end.

(** [textproto.CanonicalMIMEHeaderKey]: a key with a byte outside the
    table is returned unchanged, any other key is re-cased. *)
Definition CanonicalMIMEHeaderKey (s : string) : string :=
  if all_bytes validHeaderFieldByte s then canonicalCase true s else s.

Definition isASCIISpace (b : ascii) : bool :=
  bool_decide (b ∈ [" "; "009"; "010"; "013"]%char).

Fixpoint trim_left (s : string) : string :=
  match s with
  | EmptyString => EmptyString
  | String c s' => if isASCIISpace c then trim_left s' else s
  end.

Fixpoint trim_right (s : string) : string :=
  match s with
  | EmptyString => EmptyString
  | String c s' =>
      let t := trim_right s' in
      if isASCIISpace c && String.eqb t EmptyString then EmptyString
      else String c t
  end.

(** [textproto.TrimString]: [s] without leading and trailing ASCII
    space. *)
Definition TrimString (s : string) : string := trim_right (trim_left s).

End textproto.

(** ** [net/url] *)

Module url.

(** The fields of [url.URL] that the proxy reads or writes. *)
Record URL : Type := mkURL {
  Scheme : string;
  Host : string;
  Path : string;
  RawQuery : string
}.

Definition nonempty (s : string) : bool := negb (String.eqb s "").

(** The text before the first ["/"] ([strings.Cut(path, "/")]). *)
Fixpoint first_segment (path : string) : string :=
  match path with
  | EmptyString => EmptyString
  | String c path' =>
      if Ascii.eqb c "/" then EmptyString else String c (first_segment path')
  end.

(** The [String] method of [URL] on the modelled fields, for hosts and
    paths whose bytes need no percent-escape (escaping is not modelled). *)
Definition String (u : URL) : string :=
  let buf := if nonempty (Scheme u) then Scheme u +:+ ":" else "" in
  let buf :=
    if nonempty (Scheme u) || nonempty (Host u) then
      (buf +:+ (if nonempty (Host u) || nonempty (Path u) then "//" else ""))
      +:+ Host u
    else buf in
  let path := Path u in
  let buf :=
    if nonempty path && negb (strings.HasPrefix path "/") && nonempty (Host u)
    then buf +:+ "/" else buf in
  let buf :=
    if negb (nonempty buf) && strings.Contains (first_segment path) ":"
    then buf +:+ "./" else buf in
  let buf := buf +:+ path in
  if nonempty (RawQuery u) then (buf +:+ "?") +:+ RawQuery u else buf.

End url.

(** ** [time] and the transport configuration types *)

Module time.

(** [time.Duration]: a count of nanoseconds ([int64]). *)
Definition Duration : Type := Z.

Definition Nanosecond : Duration := 1.
Definition Microsecond : Duration := 1000 * Nanosecond.
Definition Millisecond : Duration := 1000 * Microsecond.
Definition Second : Duration := 1000 * Millisecond.

(** Whole seconds of a duration. *)
Definition Seconds (d : Duration) : Z := d / Second.

End time.

Module tls.
Record Config : Type := mkConfig { InsecureSkipVerify : bool }.
End tls.

Module net.
Record Dialer : Type := mkDialer {
  Timeout : time.Duration;
  KeepAlive : time.Duration
}.
End net.

(** ** Effects: the mutated object and the logger

    Each closure of [main] receives one object it may mutate (the
    outbound request, the backend response, the response writer) and
    writes lines to the process logger.  A computation is a function of
    the current object and log. *)

Record World (T : Type) : Type := mkWorld { target : T; logged : list string }.
Arguments mkWorld {T} _ _.
Arguments target {T} _.
Arguments logged {T} _.

Definition M (T A : Type) : Type := World T → A * World T.

#[global] Instance M_ret (T : Type) : MRet (M T) := λ A x w, (x, w).
#[global] Instance M_bind (T : Type) : MBind (M T) :=
  λ A B f m w, let (a, w') := m w in f a w'.

(** Read the object. *)
Definition load {T : Type} : M T T := λ w, (target w, w).

(** Overwrite the object with [f] applied to it (an assignment to one
    of its fields, or a call of a mutating method). *)
Definition update {T : Type} (f : T → T) : M T unit :=
  λ w, (tt, mkWorld (f (target w)) (logged w)).

(** [log.Printf]: one more line on the logger (the formatted message,
    without the logger's own prefix). *)
Definition log_Printf {T : Type} (line : string) : M T unit :=
  λ w, (tt, mkWorld (target w) (logged w ++ [line])).

(** [for i, x := range xs { body i x }], counting from [i]. *)
Fixpoint for_range {T A : Type} (i : nat) (xs : list A)
    (body : nat → A → M T unit) : M T unit :=
  match xs with
  | [] => mret tt
  | x :: xs' => body i x;; for_range (S i) xs' body
  end.

(** The object left by a computation. *)
Definition result {T A : Type} (m : M T A) (w : World T) : T := target (m w).2.

(** The value returned by a computation. *)
Definition returned {T A : Type} (m : M T A) (w : World T) : A := (m w).1.

(** [%d] of a non-negative [int]. *)
Definition itoa (n : nat) : string := NilEmpty.string_of_uint (Nat.to_uint n).

(** ** [net/http] *)

Module http.

(** [http.Header]; the keys of a header read off the wire are in
    canonical form. *)
Abbreviation Header := (gmap string (list string)).

(** [h.Del(key)]. *)
Definition Header_Del (key : string) (h : Header) : Header :=
  delete (textproto.CanonicalMIMEHeaderKey key) h.

(** [h.Set(key, value)]. *)
Definition Header_Set (key value : string) (h : Header) : Header :=
  <[textproto.CanonicalMIMEHeaderKey key := [value]]> h.

(** [h.Values(key)]: all values of the key, [nil] when it is absent. *)
Definition Header_Values (key : string) (h : Header) : list string :=
  default [] (h !! textproto.CanonicalMIMEHeaderKey key).

Record Request : Type := mkRequest {
  Method : string;
  URL : url.URL;
  Host : string;
  req_Header : Header;
  Body : string;
  RemoteAddr : string
}.

Record Response : Type := mkResponse {
  Status : string;
  StatusCode : Z;
  resp_Header : Header;
  resp_Body : string
}.

(** What a handler has sent through its [http.ResponseWriter]: the
    header map, the status written by the first [WriteHeader] (if
    any) and the body bytes written so far. *)
Record ResponseWriter : Type := mkResponseWriter {
  WHeader : Header;
  WStatus : option Z;
  WBody : string
}.

Definition StatusBadGateway : Z := 502.
Definition StatusServiceUnavailable : Z := 503.
Definition StatusGatewayTimeout : Z := 504.

(** [w.WriteHeader(code)]: only the first call takes effect. *)
Definition WriteHeader (code : Z) (w : ResponseWriter) : ResponseWriter :=
  match WStatus w with
  | Some _ => w
  | None => mkResponseWriter (WHeader w) (Some code) (WBody w)
  end.

(** [w.Write(p)]: writes the 200 status first when none was written. *)
Definition Write (p : string) (w : ResponseWriter) : ResponseWriter :=
  let w := WriteHeader 200 w in
  mkResponseWriter (WHeader w) (WStatus w) (WBody w +:+ p).

Definition set_WHeader (f : Header → Header) (w : ResponseWriter)
    : ResponseWriter :=
  mkResponseWriter (f (WHeader w)) (WStatus w) (WBody w).

(** [http.Error(w, error, code)]: a plain-text reply with the given
    status and the message followed by a newline. *)
Definition Error (error : string) (code : Z) : M ResponseWriter unit :=
  update (set_WHeader (Header_Del "Content-Length"));;
  update (set_WHeader (Header_Set "Content-Type" "text/plain; charset=utf-8"));;
  update (set_WHeader (Header_Set "X-Content-Type-Options" "nosniff"));;
  update (WriteHeader code);;
  update (Write (error +:+ String "010" "")).

(** The fields of the [http.Transport] literal of [main]. *)
Record Transport : Type := mkTransport {
  TLSClientConfig : tls.Config;
  ResponseHeaderTimeout : time.Duration;
  IdleConnTimeout : time.Duration;
  MaxIdleConns : Z;
  MaxIdleConnsPerHost : Z;
  DialContext : net.Dialer;
  ForceAttemptHTTP2 : bool
}.

End http.

(** ** [net/http/httputil]: the outbound header after [Director] *)

Module httputil.

Definition hopHeaders : list string :=
  ["Connection"; "Proxy-Connection"; "Keep-Alive"; "Proxy-Authenticate";
   "Proxy-Authorization"; "Te"; "Trailer"; "Transfer-Encoding"; "Upgrade"].

(** [removeHopByHopHeaders(h)]: deletes the headers the [Connection]
    values list, then the fixed hop-by-hop headers. *)
Definition removeHopByHopHeaders (h : http.Header) : http.Header :=
  let h :=
    foldl (λ h f,
             foldl (λ h sf,
                      let sf := textproto.TrimString sf in
                      if url.nonempty sf then http.Header_Del sf h else h)
               h (strings.Split f ","))
      h (default [] (h !! "Connection")) in
  foldl (λ h f, http.Header_Del f h) h hopHeaders.

(** What [ReverseProxy.ServeHTTP] does to the header of the outbound
    request between the return of [Director] and the call of the
    transport.  [teTrailers] tells whether the inbound [Te] header
    lists [trailers], [reqUpType] is the upgrade type of the outbound
    request and [clientIP] the host of [req.RemoteAddr] ([None] when
    [net.SplitHostPort] fails); a key mapped to no value stands for a
    key mapped to [nil]. *)
Definition ServeHTTP_outreq_Header (teTrailers : bool) (reqUpType : string)
    (clientIP : option string) (h : http.Header) : http.Header :=
  let h := removeHopByHopHeaders h in
  let h := if teTrailers then http.Header_Set "Te" "trailers" h else h in
  let h :=
    if url.nonempty reqUpType then
      http.Header_Set "Upgrade" reqUpType
        (http.Header_Set "Connection" "Upgrade" h)
    else h in
  let h :=
    match clientIP with
    | Some clientIP =>
        match h !! "X-Forwarded-For" with
        | None => http.Header_Set "X-Forwarded-For" clientIP h
        | Some [] => h
        | Some prior =>
            http.Header_Set "X-Forwarded-For"
              (strings.Join prior ", " +:+ ", " +:+ clientIP) h
        end
    | None => h
    end in
  match h !! "User-Agent" with
  | None => http.Header_Set "User-Agent" "" h
  | Some _ => h
  end.

End httputil.

(** ** [main.go] *)

(** The three flags after [init]: [None] where [init] ends the process
    with [log.Fatal]. *)
Record Flags : Type := mkFlags {
  frontendAPIPrefix : string;
  backendURL : string;
  port : string
}.

Definition init (prefix backend listen : string) : option Flags :=
  if String.eqb prefix "" then None
  else if String.eqb backend "" then None
  else if String.eqb listen "" then None
  else
    let prefix :=
      if negb (strings.HasPrefix prefix "/") then "/" +:+ prefix else prefix in
    let prefix :=
      if negb (strings.HasSuffix prefix "/") then prefix +:+ "/" else prefix in
    let backend :=
      if negb (strings.HasSuffix backend "/") then backend +:+ "/" else backend in
    Some (mkFlags prefix backend listen).

Module proxy.
Section closures.

(** [backend] is the URL parsed from the [-backend] flag and
    [frontendAPIPrefix] the [-prefix] flag; the closures capture both. *)
Variable backend : url.URL.
Variable frontendAPIPrefix : string.

Definition set_URL (f : url.URL → url.URL) (req : http.Request) : http.Request :=
  http.mkRequest (http.Method req) (f (http.URL req)) (http.Host req)
    (http.req_Header req) (http.Body req) (http.RemoteAddr req).

Definition set_Host (host : string) (req : http.Request) : http.Request :=
  http.mkRequest (http.Method req) (http.URL req) host
    (http.req_Header req) (http.Body req) (http.RemoteAddr req).

Definition set_Header (f : http.Header → http.Header) (req : http.Request)
    : http.Request :=
  http.mkRequest (http.Method req) (http.URL req) (http.Host req)
    (f (http.req_Header req)) (http.Body req) (http.RemoteAddr req).

Definition set_Scheme (scheme : string) (u : url.URL) : url.URL :=
  url.mkURL scheme (url.Host u) (url.Path u) (url.RawQuery u).

Definition set_URL_Host (host : string) (u : url.URL) : url.URL :=
  url.mkURL (url.Scheme u) host (url.Path u) (url.RawQuery u).

Definition set_Path (path : string) (u : url.URL) : url.URL :=
  url.mkURL (url.Scheme u) (url.Host u) path (url.RawQuery u).

(** The local variable [originalPath] of [Director] once the prefix
    has been looked at: the inbound path without the frontend prefix
    (["/"] when nothing is left), or the inbound path itself when it
    does not start with the prefix. *)
Definition originalPath (path : string) : string :=
  if strings.HasPrefix path frontendAPIPrefix then
    let originalPath := strings.TrimPrefix path frontendAPIPrefix in
    if String.eqb originalPath "" then "/" else originalPath
  else path.

(** [proxy.Director]: rewrites the request in place. *)
Definition Director : M http.Request unit :=
  req ← load;
  let before := url.String (http.URL req) in
  update (set_URL (set_Scheme (url.Scheme backend)));;
  update (set_URL (set_URL_Host (url.Host backend)));;
  req ← load;
  let originalPath := originalPath (url.Path (http.URL req)) in
  update (set_URL (set_Path
    (url.Path backend +:+ strings.TrimPrefix originalPath "/")));;
  update (set_Host (url.Host backend));;
  update (set_Header (http.Header_Del "X-Forwarded-Host"));;
  update (set_Header (http.Header_Del "X-Real-IP"));;
  update (set_Header (http.Header_Del "X-Forwarded-For"));;
  update (set_Header (http.Header_Del "X-Forwarded-Proto"));;
  update (set_Header (http.Header_Set "Connection" "close"));;
  req ← load;
  let after := url.String (http.URL req) in
  log_Printf ("Proxying request: " +:+ http.Method req +:+ " " +:+ before
              +:+ " -> " +:+ after);;
  log_Printf ("Path mapping: " +:+ originalPath +:+ " -> "
              +:+ url.Path (http.URL req)).

(** [proxy.Transport]. *)
Definition Transport : http.Transport := {|
  http.TLSClientConfig := {| tls.InsecureSkipVerify := true |};
  http.ResponseHeaderTimeout := 60 * time.Second;
  http.IdleConnTimeout := 120 * time.Second;
  http.MaxIdleConns := 100;
  http.MaxIdleConnsPerHost := 10;
  http.DialContext := {| net.Timeout := 30 * time.Second;
                         net.KeepAlive := 30 * time.Second |};
  http.ForceAttemptHTTP2 := true
|}.

Definition importantHeaders : list string :=
  ["Content-Type"; "Content-Length"; "Cache-Control";
   "Access-Control-Allow-Origin"].

(** [proxy.ModifyResponse]: returns the [error] ([None] for [nil]). *)
Definition ModifyResponse : M http.Response (option string) :=
  resp ← load;
  log_Printf ("Response received: " +:+ http.Status resp);;
  resp ← load;
  let cookies := http.Header_Values "Set-Cookie" (http.resp_Header resp) in
  (if (0 <? length cookies)%nat then
     log_Printf ("Found " +:+ itoa (length cookies) +:+ " Set-Cookie headers");;
     for_range 0 cookies (λ i cookie,
       log_Printf ("Set-Cookie[" +:+ itoa i +:+ "]: " +:+ cookie))
   else mret tt);;
  for_range 0 importantHeaders (λ _ header,
    resp ← load;
    let values := http.Header_Values header (http.resp_Header resp) in
    if (0 <? length values)%nat then
      for_range 0 values (λ _ value,
        log_Printf ("Response Header " +:+ header +:+ ": " +:+ value))
    else mret tt);;
  mret None.

(** [proxy.ErrorHandler]; [err] is the text of [err.Error()]. *)
Definition ErrorHandler (r : http.Request) (err : string)
    : M http.ResponseWriter unit :=
  log_Printf ("Proxy error for " +:+ http.Method r +:+ " "
              +:+ url.Path (http.URL r) +:+ ": " +:+ err);;
  if strings.Contains err "timeout" then
    http.Error "Gateway Timeout" http.StatusGatewayTimeout
  else if strings.Contains err "connection refused" then
    http.Error "Service Unavailable" http.StatusServiceUnavailable
  else
    http.Error "Bad Gateway" http.StatusBadGateway.

End closures.
End proxy.

(** ** What the closures leave behind *)

(** The four header names [Director] deletes, as the source spells them. *)
Definition forwardingHeaders : list string :=
  ["X-Forwarded-Host"; "X-Real-IP"; "X-Forwarded-For"; "X-Forwarded-Proto"].

(** The header map after the five header statements of [Director]. *)
Definition sanitized (h : http.Header) : http.Header :=
  http.Header_Set "Connection" "close"
    (http.Header_Del "X-Forwarded-Proto"
      (http.Header_Del "X-Forwarded-For"
        (http.Header_Del "X-Real-IP"
          (http.Header_Del "X-Forwarded-Host" h)))).

(** The number of slashes [s] starts with. *)
Fixpoint leading_slashes (s : string) : nat :=
  match s with
  | EmptyString => 0
  | String c s' => if Ascii.eqb c "/" then S (leading_slashes s') else 0
  end.

(** The number of slashes [s] ends with. *)
Fixpoint trailing_slashes (s : string) : nat :=
  match s with
  | EmptyString => 0
  | String c s' =>
      let t := trailing_slashes s' in
      if Ascii.eqb c "/" && (t =? String.length s')%nat then S t else t
  end.

(** The text made of [n] slashes. *)
Fixpoint slashes (n : nat) : string :=
  match n with
  | O => EmptyString
  | S n' => String "/" (slashes n')
  end.

(** The number of slashes that stand between the last byte of [base]
    that is not a slash and the first byte of [rest] that is not a
    slash, in [base] followed by [rest]. *)
Definition slashes_at_join (base rest : string) : nat :=
  (trailing_slashes base + leading_slashes rest)%nat.

(** Every key of the header map is in canonical form, as the keys of a
    request read by the [net/http] server are. *)
Definition canonical_keys (h : http.Header) : Prop :=
  map_Forall (λ k _, textproto.CanonicalMIMEHeaderKey k = k) h.

(** A computation that leaves the object it is given as it found it. *)
Definition read_only {T A : Type} (m : M T A) : Prop :=
  ∀ w : World T, target (m w).2 = target w.

(** ** Sample configurations and requests *)

(** The URL parsed from [https://example.com/v1/]. *)
Definition example_backend : url.URL :=
  url.mkURL "https" "example.com" "/v1/" "".

(** The URL parsed from [http://localhost:3000/]. *)
Definition root_backend : url.URL :=
  url.mkURL "http" "localhost:3000" "/" "".

(** The URL parsed from [https://example.com?v=1/], which is what [init]
    makes of the flag [-backend https://example.com?v=1]: the appended
    slash lands in the query and the path is empty. *)
Definition pathless_backend : url.URL :=
  url.mkURL "https" "example.com" "" "v=1/".

(** A request as the server hands it to the proxy, with an empty log. *)
Definition inbound (method path query : string) (h : http.Header)
    : World http.Request :=
  mkWorld
    (http.mkRequest method (url.mkURL "" "" path query) "localhost:8080" h
       "" "192.0.2.1:40000")
    [].

Definition sample_headers : http.Header :=
  <["Cookie" := ["session=abc123"; "theme=dark"]]>
    (<["X-Forwarded-For" := ["203.0.113.7"]]>
      (<["Connection" := ["keep-alive"]]>
        (<["Accept" := ["text/html"; "application/json"]]> ∅))).

(** A response writer nothing has been written to. *)
Definition fresh_writer : World http.ResponseWriter :=
  mkWorld (http.mkResponseWriter ∅ None "") [].

Definition sample_response : World http.Response :=
  mkWorld
    (http.mkResponse "200 OK" 200
       (<["Set-Cookie" := ["a=1; Path=/"; "b=2; HttpOnly"]]>
         (<["Content-Type" := ["application/json"]]> ∅))
       "{}")
    [].

(** ** The server handler *)

(** An [http.Cookie], as far as the handler reads it. *)
Record Cookie : Type := mkCookie { Name : string; Value : string }.

Section handler.

(** [proxy.ServeHTTP(w, r)], the reverse proxy of [net/http/httputil]. *)
Variable ServeHTTP : M (http.ResponseWriter * http.Request) unit.

(** [r.Cookies()], the cookies [net/http] parses from the [Cookie]
    headers. *)
Variable Cookies : http.Request → list Cookie.

(** The order in which [range r.Header] visits the map; Go leaves it
    unspecified. *)
Variable range_order : http.Header → list (string * list string).

(** The handler of [server]: logs the request, then forwards it. *)
Definition Handler : M (http.ResponseWriter * http.Request) unit :=
  wr ← load;
  let r := wr.2 in
  log_Printf ("Received request: " +:+ http.Method r +:+ " "
              +:+ url.Path (http.URL r) +:+ " from " +:+ http.RemoteAddr r);;
  log_Printf "Request Headers:";;
  for_range 0 (range_order (http.req_Header r)) (λ _ entry,
    for_range 0 entry.2 (λ _ value,
      log_Printf ("  " +:+ entry.1 +:+ ": " +:+ value)));;
  (let cookies := Cookies r in
   if (0 <? length cookies)%nat then
     log_Printf "Request Cookies:";;
     for_range 0 cookies (λ _ cookie,
       log_Printf ("  " +:+ Name cookie +:+ ": " +:+ Value cookie))
   else mret tt);;
  ServeHTTP.

End handler.

(** ** What a computation writes *)

(** The lines a [for ... range] loop writes when the body at index [i]
    and element [x] writes the lines [f i x]. *)
Fixpoint range_lines {A : Type} (f : nat → A → list string) (i : nat)
    (xs : list A) : list string :=
  match xs with
  | [] => []
  | x :: xs' => f i x ++ range_lines f (S i) xs'
  end.

(** A computation that leaves its object alone, returns [a] of it and
    writes the lines [g] of it after those already on the logger. *)
Definition emits {T A : Type} (m : M T A) (a : T → A) (g : T → list string)
    : Prop :=
  ∀ w : World T, m w = (a (target w), mkWorld (target w) (logged w ++ g (target w))).

(** The status and message pairs [ErrorHandler] replies with. *)
Definition error_replies : list (Z * string) :=
  [(http.StatusGatewayTimeout, "Gateway Timeout");
   (http.StatusServiceUnavailable, "Service Unavailable");
   (http.StatusBadGateway, "Bad Gateway")].

(** The lines [ModifyResponse] writes for a response. *)
Definition response_lines (resp : http.Response) : list string :=
  let cookies := http.Header_Values "Set-Cookie" (http.resp_Header resp) in
  ["Response received: " +:+ http.Status resp]
  ++ (if (0 <? length cookies)%nat then
        ("Found " +:+ itoa (length cookies) +:+ " Set-Cookie headers")
        :: imap (λ i cookie, "Set-Cookie[" +:+ itoa i +:+ "]: " +:+ cookie)
             cookies
      else [])
  ++ mjoin ((λ header,
       (λ value, "Response Header " +:+ header +:+ ": " +:+ value)
       <$> http.Header_Values header (http.resp_Header resp))
     <$> proxy.importantHeaders).

(** The lines the handler writes before it forwards the request [r],
    when [range] visits the header entries in the order [entries] and
    [r.Cookies()] is [cookies]. *)
Definition request_lines (entries : list (string * list string))
    (cookies : list Cookie) (r : http.Request) : list string :=
  ["Received request: " +:+ http.Method r +:+ " "
   +:+ url.Path (http.URL r) +:+ " from " +:+ http.RemoteAddr r;
   "Request Headers:"]
  ++ mjoin ((λ entry,
       (λ value, "  " +:+ entry.1 +:+ ": " +:+ value) <$> entry.2)
     <$> entries)
  ++ (if (0 <? length cookies)%nat then
        "Request Cookies:"
        :: ((λ cookie, "  " +:+ Name cookie +:+ ": " +:+ Value cookie)
            <$> cookies)
      else []).

(** * Proofs *)

(** ** Facts about the [strings] package *)

Lemma HasPrefix_app (p r : string) : strings.HasPrefix (p +:+ r) p = true.
Proof.
  induction p as [|c p IH]; simpl; [done|].
  by rewrite Ascii.eqb_refl.
Qed.

Lemma HasPrefix_inv (s p : string) :
  strings.HasPrefix s p = true → ∃ r, s = p +:+ r.
Proof.
  revert s. induction p as [|c p IH]; intros s H; simpl in *.
  - by exists s.
  - destruct s as [|d s]; [done|].
    destruct (Ascii.eqb c d) eqn:E; [|done].
    apply Ascii.eqb_eq in E as ->.
    destruct (IH _ H) as [r ->]. by exists r.
Qed.

Lemma slice_from_app (p r : string) :
  strings.slice_from (String.length p) (p +:+ r) = r.
Proof. induction p as [|c p IH]; simpl; [by destruct r|done]. Qed.

Lemma TrimPrefix_app (p r : string) : strings.TrimPrefix (p +:+ r) p = r.
Proof.
  unfold strings.TrimPrefix. by rewrite HasPrefix_app, slice_from_app.
Qed.

Lemma string_app_cons (c : ascii) (a b : string) :
  String c a +:+ b = String c (a +:+ b).
Proof. reflexivity. Qed.

Lemma string_app_nil_r (a : string) : a +:+ "" = a.
Proof.
  induction a as [|c a IH]; [done|]. by rewrite string_app_cons, IH.
Qed.

Lemma TrimPrefix_self (p : string) : strings.TrimPrefix p p = "".
Proof.
  pose proof (TrimPrefix_app p "") as H. by rewrite string_app_nil_r in H.
Qed.

Lemma string_app_length (a b : string) :
  String.length (a +:+ b) = (String.length a + String.length b)%nat.
Proof.
  induction a as [|c a IH]; [done|]. rewrite string_app_cons. simpl. by rewrite IH.
Qed.

Lemma string_app_assoc (a b c : string) : (a +:+ b) +:+ c = a +:+ b +:+ c.
Proof.
  induction a as [|x a IH]; [done|]. by rewrite !string_app_cons, IH.
Qed.

Lemma string_app_inv_tail (a b r : string) : a +:+ r = b +:+ r → a = b.
Proof.
  revert b. induction a as [|x a IH]; intros [|y b] H.
  - done.
  - apply (f_equal String.length) in H.
    rewrite !string_app_length in H. simpl in H. lia.
  - apply (f_equal String.length) in H.
    rewrite !string_app_length in H. simpl in H. lia.
  - rewrite !string_app_cons in H. injection H as -> H. f_equal. by apply IH.
Qed.

Lemma HasSuffix_app (s suffix : string) :
  strings.HasSuffix (s +:+ suffix) suffix = true.
Proof.
  unfold strings.HasSuffix. rewrite string_app_length.
  replace (String.length s + String.length suffix - String.length suffix)%nat
    with (String.length s) by lia.
  rewrite slice_from_app, String.eqb_refl, andb_true_r.
  apply Nat.leb_le. lia.
Qed.

Lemma HasPrefix_app_r (s p r : string) :
  strings.HasPrefix s p = true → strings.HasPrefix (s +:+ r) p = true.
Proof.
  intros [t ->]%HasPrefix_inv. rewrite string_app_assoc. apply HasPrefix_app.
Qed.

(** ** The configuration left by [init] *)

(** When [init] lets the process go on, the frontend prefix starts and
    ends with a slash and the backend URL ends with one. *)
Lemma init_normalized (prefix backend listen : string) (f : Flags) :
  init prefix backend listen = Some f →
  strings.HasPrefix (frontendAPIPrefix f) "/" = true
  ∧ strings.HasSuffix (frontendAPIPrefix f) "/" = true
  ∧ strings.HasSuffix (backendURL f) "/" = true
  ∧ port f = listen.
Proof.
  unfold init.
  destruct (String.eqb prefix ""); [done|].
  destruct (String.eqb backend ""); [done|].
  destruct (String.eqb listen ""); [done|].
  set (p1 := if negb (strings.HasPrefix prefix "/")
             then "/" +:+ prefix else prefix).
  set (p2 := if negb (strings.HasSuffix p1 "/") then p1 +:+ "/" else p1).
  set (b := if negb (strings.HasSuffix backend "/")
            then backend +:+ "/" else backend).
  assert (strings.HasPrefix p1 "/" = true) as Hp1.
  { subst p1.
    destruct (strings.HasPrefix prefix "/") eqn:E; [exact E|reflexivity]. }
  assert (strings.HasPrefix p2 "/" = true) as Hp2.
  { subst p2. destruct (strings.HasSuffix p1 "/"); cbn [negb]; [done|].
    by apply HasPrefix_app_r. }
  assert (strings.HasSuffix p2 "/" = true) as Hs2.
  { subst p2. destruct (strings.HasSuffix p1 "/") eqn:E; cbn [negb]; [done|].
    apply HasSuffix_app. }
  assert (strings.HasSuffix b "/" = true) as Hb.
  { subst b. destruct (strings.HasSuffix backend "/") eqn:E; cbn [negb];
      [done|]. apply HasSuffix_app. }
  clearbody p1 p2 b. intros [= <-]. done.
Qed.

(** ** Facts about [Director] *)

Section director_facts.

Variable backend : url.URL.
Variable prefix : string.

Lemma Director_result (w : World http.Request) :
  result (proxy.Director backend prefix) w =
    let req := target w in
    http.mkRequest (http.Method req)
      (url.mkURL (url.Scheme backend) (url.Host backend)
         (url.Path backend +:+
            strings.TrimPrefix
              (proxy.originalPath prefix (url.Path (http.URL req))) "/")
         (url.RawQuery (http.URL req)))
      (url.Host backend)
      (sanitized (http.req_Header req))
      (http.Body req) (http.RemoteAddr req).
Proof. reflexivity. Qed.

Lemma Director_path (w : World http.Request) :
  url.Path (http.URL (result (proxy.Director backend prefix) w)) =
    url.Path backend +:+
      strings.TrimPrefix
        (proxy.originalPath prefix (url.Path (http.URL (target w)))) "/".
Proof. reflexivity. Qed.

Lemma Director_header (w : World http.Request) :
  http.req_Header (result (proxy.Director backend prefix) w) =
    sanitized (http.req_Header (target w)).
Proof. reflexivity. Qed.

End director_facts.

Lemma originalPath_prefixed (prefix r : string) :
  proxy.originalPath prefix (prefix +:+ r) =
    if String.eqb r "" then "/" else r.
Proof.
  unfold proxy.originalPath. by rewrite HasPrefix_app, TrimPrefix_app.
Qed.

Lemma originalPath_other (prefix path : string) :
  strings.HasPrefix path prefix = false →
  proxy.originalPath prefix path = path.
Proof. unfold proxy.originalPath. by intros ->. Qed.

(** Stripping one slash from the remainder gives the same text whether
    or not the empty remainder was first replaced by ["/"]. *)
Lemma TrimPrefix_originalPath (prefix path : string) :
  strings.HasPrefix path prefix = true →
  strings.TrimPrefix (proxy.originalPath prefix path) "/" =
    strings.TrimPrefix (strings.TrimPrefix path prefix) "/".
Proof.
  intros [r ->]%HasPrefix_inv.
  rewrite originalPath_prefixed, TrimPrefix_app.
  destruct (String.eqb_spec r "") as [->|]; done.
Qed.

(** ** The path rewriter *)

(** C1 (amended).  For every inbound path [P] that starts with the
    frontend prefix, [Director] sets the outbound path to the backend
    base path followed by [P] without the prefix and without one
    leading slash, if it has one.  When [P] is the prefix itself the
    outbound path is the backend base path itself; it is empty exactly
    when the backend base path is empty. *)
Theorem C1_rewrite_prefixed (backend : url.URL) (prefix : string)
    (w : World http.Request) :
  let P := url.Path (http.URL (target w)) in
  let out := url.Path (http.URL (result (proxy.Director backend prefix) w)) in
  strings.HasPrefix P prefix = true →
  out = url.Path backend
          +:+ strings.TrimPrefix (strings.TrimPrefix P prefix) "/"
  ∧ (P = prefix →
     out = url.Path backend ∧ (out = "" ↔ url.Path backend = "")).
Proof.
  intros P out HP. subst out. rewrite Director_path. fold P.
  rewrite (TrimPrefix_originalPath _ _ HP). split; [done|].
  intros ->. rewrite TrimPrefix_self.
  change (strings.TrimPrefix "" "/") with "". by rewrite string_app_nil_r.
Qed.

Lemma C1_rewrite_prefixed_witness :
  strings.HasPrefix "/api/users" "/api/" = true
  ∧ url.Path (http.URL (result (proxy.Director example_backend "/api/")
                          (inbound "GET" "/api/users" "x=1" ∅)))
    = "/v1/users"
  ∧ strings.HasPrefix "/api/" "/api/" = true
  ∧ url.Path (http.URL (result (proxy.Director example_backend "/api/")
                          (inbound "GET" "/api/" "" ∅)))
    = "/v1/".
Proof.
  split; [reflexivity|].
  split; [exact (proj1 (C1_rewrite_prefixed example_backend "/api/"
                          (inbound "GET" "/api/users" "x=1" ∅) eq_refl))|].
  split; [reflexivity|].
  exact (proj1 (proj2 (C1_rewrite_prefixed example_backend "/api/"
                         (inbound "GET" "/api/" "" ∅) eq_refl) eq_refl)).
Defined.

(** C1 as stated fails: with a backend URL that has no path, a request
    for the frontend prefix itself is sent on with an empty path. *)
Lemma C1_counterexample_empty_base :
  let w := inbound "GET" "/api/" "" ∅ in
  url.Path (http.URL (target w)) = "/api/"
  ∧ url.Path (http.URL (result (proxy.Director pathless_backend "/api/") w))
    = "".
Proof. split; reflexivity. Qed.

Lemma HasPrefix_cons (c d : ascii) (p s : string) :
  strings.HasPrefix (String d s) (String c p) =
    if Ascii.eqb c d then strings.HasPrefix s p else false.
Proof. reflexivity. Qed.

Lemma slashes_app (m n : nat) : slashes (m + n) = slashes m +:+ slashes n.
Proof. induction m as [|m IH]; [done|]. simpl. by rewrite IH. Qed.

Lemma slashes_length (n : nat) : String.length (slashes n) = n.
Proof. induction n as [|n IH]; [done|]. simpl. by rewrite IH. Qed.

Lemma leading_slashes_split (s : string) :
  ∃ r0 : string,
    strings.HasPrefix r0 "/" = false ∧ s = slashes (leading_slashes s) +:+ r0.
Proof.
  induction s as [|c s (r0 & Hr0 & IH)]; [by exists ""|].
  cbn [leading_slashes]. destruct (Ascii.eqb c "/") eqn:E.
  - apply Ascii.eqb_eq in E as ->. exists r0. split; [done|].
    cbn [slashes]. rewrite string_app_cons. by rewrite <- IH.
  - exists (String c s). split; [|done].
    change "/" with (String "/" ""). rewrite HasPrefix_cons.
    by rewrite Ascii.eqb_sym, E.
Qed.

Lemma HasSuffix_slash_one (c : ascii) :
  strings.HasSuffix (String c "") "/" = Ascii.eqb c "/".
Proof.
  unfold strings.HasSuffix.
  cbn [String.length Nat.sub strings.slice_from Nat.leb andb].
  change "/" with (String "/" ""). cbn [String.eqb].
  by destruct (Ascii.eqb c "/").
Qed.

Lemma HasSuffix_slash_cons (c d : ascii) (s : string) :
  strings.HasSuffix (String c (String d s)) "/"
  = strings.HasSuffix (String d s) "/".
Proof.
  unfold strings.HasSuffix.
  cbn [String.length Nat.sub strings.slice_from Nat.leb andb].
  by rewrite Nat.sub_0_r.
Qed.

Lemma trailing_slashes_le (s : string) :
  (trailing_slashes s <= String.length s)%nat.
Proof.
  induction s as [|c s IH]; [done|]. cbn [trailing_slashes String.length].
  destruct (Ascii.eqb c "/" && _); lia.
Qed.

Lemma trailing_slashes_split (s : string) :
  ∃ b0 : string,
    strings.HasSuffix b0 "/" = false
    ∧ s = b0 +:+ slashes (trailing_slashes s).
Proof.
  induction s as [|c s (b0 & Hb0 & IH)]; [by exists ""|].
  cbn [trailing_slashes].
  destruct (Nat.eqb_spec (trailing_slashes s) (String.length s)) as [Ht|Ht].
  - assert (b0 = "") as ->.
    { apply (f_equal String.length) in IH.
      rewrite string_app_length, slashes_length in IH.
      destruct b0; [done|]. simpl in IH. lia. }
    destruct (Ascii.eqb c "/") eqn:E; cbn [andb].
    + apply Ascii.eqb_eq in E as ->. exists "". split; [done|].
      cbn [slashes]. by rewrite IH at 1.
    + exists (String c ""). split; [by rewrite HasSuffix_slash_one|].
      by rewrite IH at 1.
  - rewrite andb_false_r. exists (String c b0).
    split; [|by rewrite string_app_cons, <- IH].
    destruct b0 as [|d b0]; [|by rewrite HasSuffix_slash_cons].
    exfalso. apply Ht. apply (f_equal String.length) in IH.
    rewrite string_app_length, slashes_length in IH. simpl in IH. done.
Qed.

Lemma leading_slashes_TrimPrefix (o : string) :
  leading_slashes (strings.TrimPrefix o "/") = Nat.pred (leading_slashes o).
Proof.
  destruct o as [|c o]; [done|]. unfold strings.TrimPrefix.
  change "/" with (String "/" "") at 1. rewrite HasPrefix_cons.
  cbn [leading_slashes]. rewrite (Ascii.eqb_sym "/" c).
  by destruct (Ascii.eqb c "/") eqn:E; cbn [leading_slashes]; rewrite ?E.
Qed.

Lemma HasPrefix_two_slashes (o : string) :
  strings.HasPrefix o "//" = false ↔ (leading_slashes o <= 1)%nat.
Proof.
  destruct o as [|c o]; [by split; [simpl; lia|]|].
  change "//" with (String "/" (String "/" "")). rewrite HasPrefix_cons.
  cbn [leading_slashes]. rewrite (Ascii.eqb_sym "/" c).
  destruct (Ascii.eqb c "/"); [|by split; [lia|]].
  destruct o as [|d o]; [by split; [simpl; lia|]|].
  rewrite HasPrefix_cons. cbn [leading_slashes]. rewrite (Ascii.eqb_sym "/" d).
  destruct (Ascii.eqb d "/"); [|by split; [lia|]].
  split; [done|lia].
Qed.

(** C6 (amended).  The outbound path is the backend base path followed
    by the remainder (the inbound path without the frontend prefix, or
    the whole inbound path when it does not start with the prefix)
    without one leading slash.  The slashes that separate the last
    byte of the base path that is not a slash from the first byte of
    the remainder that is not one are those the base path ends with
    and those the remainder starts with, less the one that is
    stripped.  So for a base path that ends in exactly one slash,
    exactly one slash separates them if and only if the remainder does
    not begin with two slashes. *)
Theorem C6_single_slash_join (backend : url.URL) (prefix : string)
    (w : World http.Request) :
  let base := url.Path backend in
  let remainder :=
    proxy.originalPath prefix (url.Path (http.URL (target w))) in
  let rest := strings.TrimPrefix remainder "/" in
  let out := url.Path (http.URL (result (proxy.Director backend prefix) w)) in
  out = base +:+ rest
  ∧ (∃ b0 r0 : string,
       strings.HasSuffix b0 "/" = false
       ∧ strings.HasPrefix r0 "/" = false
       ∧ base = b0 +:+ slashes (trailing_slashes base)
       ∧ rest = slashes (leading_slashes rest) +:+ r0
       ∧ out = b0 +:+ slashes (slashes_at_join base rest) +:+ r0)
  ∧ slashes_at_join base rest
    = (trailing_slashes base + Nat.pred (leading_slashes remainder))%nat
  ∧ (trailing_slashes base = 1%nat →
     (slashes_at_join base rest = 1%nat
      ↔ strings.HasPrefix remainder "//" = false)).
Proof.
  intros base remainder rest out.
  assert (out = base +:+ rest) as Hout by apply Director_path.
  split; [done|]. split; [|split].
  - destruct (trailing_slashes_split base) as (b0 & Hb0 & Hbase).
    destruct (leading_slashes_split rest) as (r0 & Hr0 & Hrest).
    exists b0, r0. repeat split; try done.
    rewrite Hout. unfold slashes_at_join.
    rewrite slashes_app, string_app_assoc, <- Hrest.
    by rewrite <- string_app_assoc, <- Hbase.
  - unfold slashes_at_join. subst rest.
    by rewrite leading_slashes_TrimPrefix.
  - intros Hbase. unfold slashes_at_join. subst rest.
    rewrite leading_slashes_TrimPrefix, Hbase, HasPrefix_two_slashes. lia.
Qed.

Lemma C6_single_slash_join_witness :
  trailing_slashes "/v1/" = 1%nat
  ∧ strings.HasPrefix "/users" "//" = false
  ∧ url.Path (http.URL (result (proxy.Director example_backend "/api/")
                          (inbound "GET" "/api//users" "" ∅)))
    = "/v1/users"
  ∧ slashes_at_join "/v1/" "users" = 1%nat.
Proof.
  pose proof (C6_single_slash_join example_backend "/api/"
                (inbound "GET" "/api//users" "" ∅)) as (Hout & _ & _ & Hjoin).
  split; [reflexivity|]. split; [reflexivity|]. split; [exact Hout|].
  exact (proj2 (Hjoin eq_refl) eq_refl).
Defined.

(** C6 as stated fails: an inbound path with three slashes after the
    prefix leaves two slashes at the join, a backend base path that
    itself ends in two slashes leaves two as well, and a backend URL
    without a path leaves none. *)
Lemma C6_counterexample_double_slash :
  let out := url.Path (http.URL (result (proxy.Director example_backend "/api/")
                                   (inbound "GET" "/api///x" "" ∅))) in
  let out' := url.Path (http.URL (result (proxy.Director pathless_backend "/api/")
                                    (inbound "GET" "/api/users" "" ∅))) in
  let out'' := url.Path (http.URL
                 (result (proxy.Director
                            (url.mkURL "https" "example.com" "/v1//" "") "/api/")
                    (inbound "GET" "/api/x" "" ∅))) in
  out = "/v1/" +:+ "/x"
  ∧ slashes_at_join "/v1/" "/x" = 2%nat
  ∧ strings.Contains out "//" = true
  ∧ out' = "" +:+ "users"
  ∧ slashes_at_join "" "users" = 0%nat
  ∧ out'' = "/v1//" +:+ "x"
  ∧ slashes_at_join "/v1//" "x" = 2%nat.
Proof. repeat split; reflexivity. Qed.

(** C9 (amended).  For every inbound path the outbound path starts with
    the backend base path.  A path that does not start with the
    frontend prefix is appended to the base path without one leading
    slash; the result is the inbound path itself only when the base
    path is ["/"] and the path starts with a slash, or the base path is
    empty and the path does not start with a slash. *)
Theorem C9_grafted_on_base (backend : url.URL) (prefix : string)
    (w : World http.Request) :
  let P := url.Path (http.URL (target w)) in
  let out := url.Path (http.URL (result (proxy.Director backend prefix) w)) in
  strings.HasPrefix out (url.Path backend) = true
  ∧ (strings.HasPrefix P prefix = false →
     out = url.Path backend +:+ strings.TrimPrefix P "/"
     ∧ (out = P ↔
        (url.Path backend = "/" ∧ strings.HasPrefix P "/" = true)
        ∨ (url.Path backend = "" ∧ strings.HasPrefix P "/" = false))).
Proof.
  intros P out. subst out. rewrite Director_path. fold P.
  split; [apply HasPrefix_app|].
  intros HP. rewrite (originalPath_other _ _ HP). split; [done|].
  destruct (strings.HasPrefix P "/") eqn:E.
  - destruct (HasPrefix_inv _ _ E) as [r Hr]. rewrite Hr, TrimPrefix_app.
    split.
    + intros H%string_app_inv_tail. by left.
    + intros [[-> _]|[_ ?]]; done.
  - unfold strings.TrimPrefix. rewrite E. split.
    + intros H. right. split; [|done].
      by apply (string_app_inv_tail _ "" P).
    + intros [[_ ?]|[-> _]]; done.
Qed.

Lemma C9_grafted_on_base_witness :
  strings.HasPrefix "/health" "/api/" = false
  ∧ url.Path (http.URL (result (proxy.Director example_backend "/api/")
                          (inbound "GET" "/health" "" ∅)))
    = "/v1/health"
  ∧ url.Path root_backend = "/"
  ∧ strings.HasPrefix "/health" "/" = true
  ∧ url.Path (http.URL (result (proxy.Director root_backend "/api/")
                          (inbound "GET" "/health" "" ∅)))
    = "/health".
Proof.
  pose proof (C9_grafted_on_base example_backend "/api/"
                (inbound "GET" "/health" "" ∅)) as [_ H1].
  pose proof (C9_grafted_on_base root_backend "/api/"
                (inbound "GET" "/health" "" ∅)) as [_ H2].
  split; [reflexivity|]. split; [exact (proj1 (H1 eq_refl))|].
  split; [reflexivity|]. split; [reflexivity|].
  apply (proj2 (H2 eq_refl)). left. split; reflexivity.
Defined.

(** C9 as stated fails: with the backend base path ["/"] a request
    outside the frontend prefix is sent on with its own path. *)
Lemma C9_counterexample_root_base :
  let w := inbound "GET" "/health" "" ∅ in
  strings.HasPrefix (url.Path (http.URL (target w))) "/api/" = false
  ∧ url.Path (http.URL (result (proxy.Director root_backend "/api/") w))
    = url.Path (http.URL (target w)).
Proof. split; reflexivity. Qed.

(** ** The header sanitizer *)

Lemma sanitized_unfold (h : http.Header) :
  sanitized h =
    <["Connection" := ["close"]]>
      (delete "X-Forwarded-Proto"
        (delete "X-Forwarded-For"
          (delete "X-Real-Ip"
            (delete "X-Forwarded-Host" h)))).
Proof. reflexivity. Qed.

Lemma forwardingHeaders_canonical :
  textproto.CanonicalMIMEHeaderKey <$> forwardingHeaders =
    ["X-Forwarded-Host"; "X-Real-Ip"; "X-Forwarded-For"; "X-Forwarded-Proto"].
Proof. reflexivity. Qed.

Lemma sanitized_lookup_forwarding (h : http.Header) (k : string) :
  k ∈ (textproto.CanonicalMIMEHeaderKey <$> forwardingHeaders) →
  sanitized h !! k = None.
Proof.
  rewrite forwardingHeaders_canonical, sanitized_unfold.
  rewrite !elem_of_cons, elem_of_nil.
  intros [->|[->|[->|[->|[]]]]]; by simplify_map_eq.
Qed.

Lemma sanitized_lookup_Connection (h : http.Header) :
  sanitized h !! "Connection" = Some ["close"].
Proof. rewrite sanitized_unfold. by simplify_map_eq. Qed.

Lemma sanitized_lookup_other (h : http.Header) (k : string) :
  k ≠ "Connection" →
  k ∉ (textproto.CanonicalMIMEHeaderKey <$> forwardingHeaders) →
  sanitized h !! k = h !! k.
Proof.
  rewrite forwardingHeaders_canonical, sanitized_unfold.
  rewrite !not_elem_of_cons. intros ? (?&?&?&?&_).
  by rewrite lookup_insert_ne, !lookup_delete_ne.
Qed.

Lemma sanitized_canonical_keys (h : http.Header) :
  canonical_keys h → canonical_keys (sanitized h).
Proof.
  unfold canonical_keys. rewrite sanitized_unfold. intros Hh.
  apply map_Forall_insert_2; [reflexivity|].
  by do 4 apply map_Forall_delete.
Qed.

(** C3 (amended).  For every inbound header set, [Director] leaves
    every header other than [Connection] and the four forwarding
    headers exactly as it came in, values in order; in particular the
    [Cookie] header.  The four forwarding headers are removed,
    [Connection] is set to the single value [close] whatever it was,
    and the outbound [Host] is the backend's host. *)
Theorem C3_headers_copied (backend : url.URL) (prefix : string)
    (w : World http.Request) :
  let inh := http.req_Header (target w) in
  let out := result (proxy.Director backend prefix) w in
  let outh := http.req_Header out in
  (∀ k : string,
     k ≠ "Connection" →
     k ∉ (textproto.CanonicalMIMEHeaderKey <$> forwardingHeaders) →
     outh !! k = inh !! k)
  ∧ http.Header_Values "Cookie" outh = http.Header_Values "Cookie" inh
  ∧ (∀ n : string, n ∈ forwardingHeaders → http.Header_Values n outh = [])
  ∧ http.Header_Values "Connection" outh = ["close"]
  ∧ http.Host out = url.Host backend.
Proof.
  intros inh out outh. subst outh out. rewrite Director_header. fold inh.
  split; [intros k ??; by apply sanitized_lookup_other|].
  split.
  { unfold http.Header_Values.
    by rewrite sanitized_lookup_other; [| |rewrite forwardingHeaders_canonical;
      rewrite !not_elem_of_cons; repeat split; try done; apply not_elem_of_nil]. }
  split.
  { intros n Hn. unfold http.Header_Values.
    rewrite sanitized_lookup_forwarding; [done|].
    by apply list_elem_of_fmap_2. }
  split; [|done].
  unfold http.Header_Values.
  change (textproto.CanonicalMIMEHeaderKey "Connection") with "Connection".
  by rewrite sanitized_lookup_Connection.
Qed.

Lemma C3_headers_copied_witness :
  let outh := http.req_Header (result (proxy.Director example_backend "/api/")
                                 (inbound "GET" "/api/users" "" sample_headers)) in
  "Accept" ≠ "Connection"
  ∧ ("Accept" ∉ (textproto.CanonicalMIMEHeaderKey <$> forwardingHeaders))
  ∧ outh !! "Accept" = Some ["text/html"; "application/json"]
  ∧ http.Header_Values "Cookie" outh = ["session=abc123"; "theme=dark"]
  ∧ ("X-Forwarded-For" ∈ forwardingHeaders)
  ∧ http.Header_Values "X-Forwarded-For" outh = [].
Proof.
  pose proof (C3_headers_copied example_backend "/api/"
                (inbound "GET" "/api/users" "" sample_headers))
    as (Hother & Hcookie & Hfwd & _).
  assert ("Accept" ≠ "Connection") as H1 by discriminate.
  assert ("Accept" ∉ (textproto.CanonicalMIMEHeaderKey <$> forwardingHeaders))
    as H2.
  { rewrite forwardingHeaders_canonical, !not_elem_of_cons.
    repeat split; try discriminate. apply not_elem_of_nil. }
  assert ("X-Forwarded-For" ∈ forwardingHeaders) as H3
    by (do 2 apply list_elem_of_further; apply list_elem_of_here).
  split; [exact H1|]. split; [exact H2|].
  split; [exact (Hother "Accept" H1 H2)|].
  split; [exact Hcookie|]. split; [exact H3|].
  exact (Hfwd "X-Forwarded-For" H3).
Defined.

(** C3 as stated fails: a forwarding header that came in is not copied
    to the outbound request. *)
Lemma C3_counterexample_forwarded_for :
  let w := inbound "GET" "/api/users" "" sample_headers in
  http.req_Header (target w) !! "X-Forwarded-For" = Some ["203.0.113.7"]
  ∧ http.req_Header (result (proxy.Director example_backend "/api/") w)
      !! "X-Forwarded-For" = None.
Proof. split; reflexivity. Qed.

(** Whatever headers came in, none of [X-Forwarded-Host], [X-Real-IP],
    [X-Forwarded-For] and [X-Forwarded-Proto] is in the header map at
    the moment [Director] returns: a lookup of the name finds no value,
    and when the inbound keys are canonical (as those of a request read
    off the wire are) no key that differs from one of the four names
    only in letter case is left either. *)
Theorem Director_forwarding_headers_absent (backend : url.URL) (prefix : string)
    (w : World http.Request) :
  let inh := http.req_Header (target w) in
  let outh := http.req_Header (result (proxy.Director backend prefix) w) in
  (∀ n : string, n ∈ forwardingHeaders →
     http.Header_Values n outh = []
     ∧ outh !! textproto.CanonicalMIMEHeaderKey n = None)
  ∧ (canonical_keys inh →
     ∀ k n : string, n ∈ forwardingHeaders →
       textproto.CanonicalMIMEHeaderKey k = textproto.CanonicalMIMEHeaderKey n →
       outh !! k = None).
Proof.
  intros inh outh. subst outh. rewrite Director_header. fold inh.
  assert (∀ n : string, n ∈ forwardingHeaders →
            sanitized inh !! textproto.CanonicalMIMEHeaderKey n = None) as Hgone.
  { intros n Hn. apply sanitized_lookup_forwarding.
    by apply list_elem_of_fmap_2. }
  split.
  - intros n Hn. unfold http.Header_Values. by rewrite (Hgone n Hn).
  - intros Hcanon k n Hn Hk.
    destruct (sanitized inh !! k) as [v|] eqn:E; [|done].
    pose proof (sanitized_canonical_keys _ Hcanon k v E) as Hc. simpl in Hc.
    rewrite <- Hc, Hk, (Hgone n Hn) in E. done.
Qed.

Lemma sample_headers_canonical : canonical_keys sample_headers.
Proof.
  unfold canonical_keys, sample_headers.
  repeat (apply map_Forall_insert_2; [reflexivity|]).
  apply map_Forall_empty.
Defined.

Lemma Director_forwarding_headers_absent_example :
  let outh := http.req_Header (result (proxy.Director example_backend "/api/")
                                 (inbound "GET" "/api/users" "" sample_headers)) in
  canonical_keys sample_headers
  ∧ ("X-Forwarded-For" ∈ forwardingHeaders)
  ∧ sample_headers !! "X-Forwarded-For" = Some ["203.0.113.7"]
  ∧ outh !! "X-Forwarded-For" = None
  ∧ http.Header_Values "X-Forwarded-For" outh = [].
Proof.
  pose proof (Director_forwarding_headers_absent example_backend "/api/"
                (inbound "GET" "/api/users" "" sample_headers))
    as [Hvalues Hkeys].
  assert ("X-Forwarded-For" ∈ forwardingHeaders) as Hin
    by (do 2 apply list_elem_of_further; apply list_elem_of_here).
  split; [exact sample_headers_canonical|]. split; [exact Hin|].
  split; [reflexivity|].
  split; [exact (Hkeys sample_headers_canonical
                   "X-Forwarded-For" "X-Forwarded-For" Hin eq_refl)|].
  exact (proj1 (Hvalues "X-Forwarded-For" Hin)).
Defined.

(** ** The outbound header as the transport receives it *)

Lemma foldl_invariant {A B : Type} (P : A → Prop) (f : A → B → A)
    (l : list B) (a : A) :
  (∀ a b, P a → P (f a b)) → P a → P (foldl f a l).
Proof.
  intros Hf. revert a. induction l as [|b l IH]; intros a Ha; [done|].
  simpl. apply IH. by apply Hf.
Qed.

Lemma Header_Del_None (key k : string) (h : http.Header) :
  h !! k = None → http.Header_Del key h !! k = None.
Proof.
  intros H. unfold http.Header_Del.
  destruct (decide (textproto.CanonicalMIMEHeaderKey key = k)) as [<-|Hne];
    [apply lookup_delete_eq|by rewrite lookup_delete_ne].
Qed.

Lemma removeHopByHopHeaders_None (k : string) (h : http.Header) :
  h !! k = None → httputil.removeHopByHopHeaders h !! k = None.
Proof.
  intros H. unfold httputil.removeHopByHopHeaders.
  apply (foldl_invariant (λ h, h !! k = None));
    [intros; by apply Header_Del_None|].
  apply (foldl_invariant (λ h, h !! k = None)); [|done].
  intros h' f Hh'. apply (foldl_invariant (λ h, h !! k = None)); [|done].
  intros h'' sf Hh''. destruct (url.nonempty _); [|done].
  by apply Header_Del_None.
Qed.

Lemma ServeHTTP_outreq_Header_None (te : bool) (up : string)
    (ip : option string) (k : string) (h : http.Header) :
  k ∉ ["Te"; "Upgrade"; "Connection"; "X-Forwarded-For"; "User-Agent"] →
  h !! k = None →
  httputil.ServeHTTP_outreq_Header te up ip h !! k = None.
Proof.
  rewrite !not_elem_of_cons. intros (Hte & Hup & Hco & Hxf & Hua & _) H.
  apply removeHopByHopHeaders_None in H.
  unfold httputil.ServeHTTP_outreq_Header.
  set (h0 := httputil.removeHopByHopHeaders h) in *.
  set (h1 := if te then _ else _).
  assert (h1 !! k = None) as H1.
  { subst h1. destruct te; [|done]. unfold http.Header_Set.
    change (textproto.CanonicalMIMEHeaderKey "Te") with "Te".
    by rewrite lookup_insert_ne. }
  clearbody h1.
  set (h2 := if url.nonempty up then _ else _).
  assert (h2 !! k = None) as H2.
  { subst h2. destruct (url.nonempty up); [|done]. unfold http.Header_Set.
    change (textproto.CanonicalMIMEHeaderKey "Upgrade") with "Upgrade".
    change (textproto.CanonicalMIMEHeaderKey "Connection") with "Connection".
    by rewrite !lookup_insert_ne. }
  clearbody h2.
  set (h3 := match ip with Some _ => _ | None => _ end).
  assert (h3 !! k = None) as H3.
  { subst h3. destruct ip as [ip|]; [|done].
    unfold http.Header_Set.
    change (textproto.CanonicalMIMEHeaderKey "X-Forwarded-For")
      with "X-Forwarded-For".
    destruct (h2 !! "X-Forwarded-For") as [[|v vs]|];
      [done|by rewrite lookup_insert_ne|by rewrite lookup_insert_ne]. }
  clearbody h3.
  destruct (h3 !! "User-Agent"); [done|]. unfold http.Header_Set.
  change (textproto.CanonicalMIMEHeaderKey "User-Agent") with "User-Agent".
  by rewrite lookup_insert_ne.
Qed.

Lemma ServeHTTP_outreq_Header_forwarded_for (te : bool) (up ip : string)
    (h : http.Header) :
  h !! "X-Forwarded-For" = None →
  httputil.ServeHTTP_outreq_Header te up (Some ip) h !! "X-Forwarded-For"
  = Some [ip].
Proof.
  intros H. apply (removeHopByHopHeaders_None "X-Forwarded-For") in H.
  unfold httputil.ServeHTTP_outreq_Header.
  set (h0 := httputil.removeHopByHopHeaders h) in *.
  set (h1 := if te then _ else _).
  assert (h1 !! "X-Forwarded-For" = None) as H1.
  { subst h1. destruct te; [|done]. unfold http.Header_Set.
    change (textproto.CanonicalMIMEHeaderKey "Te") with "Te".
    by rewrite lookup_insert_ne. }
  clearbody h1.
  set (h2 := if url.nonempty up then _ else _).
  assert (h2 !! "X-Forwarded-For" = None) as H2.
  { subst h2. destruct (url.nonempty up); [|done]. unfold http.Header_Set.
    change (textproto.CanonicalMIMEHeaderKey "Upgrade") with "Upgrade".
    change (textproto.CanonicalMIMEHeaderKey "Connection") with "Connection".
    by rewrite !lookup_insert_ne. }
  clearbody h2. rewrite H2. unfold http.Header_Set.
  change (textproto.CanonicalMIMEHeaderKey "X-Forwarded-For")
    with "X-Forwarded-For".
  change (textproto.CanonicalMIMEHeaderKey "User-Agent") with "User-Agent".
  destruct (_ !! "User-Agent");
    [by rewrite lookup_insert_eq|by rewrite lookup_insert_ne, lookup_insert_eq].
Qed.

(** C4.  [Director] deletes the four forwarding headers, but the
    request that leaves the proxy is not without them: [Director] runs
    inside [ReverseProxy.ServeHTTP], which finds [X-Forwarded-For]
    unset when [Director] returns and sets it to the address of the
    client.  Whatever came in, the header handed to the transport has
    [X-Forwarded-For] with the client address as its only value (what
    came in under that name is not sent on), and has no
    [X-Forwarded-Host], [X-Real-IP] or [X-Forwarded-Proto]. *)
Theorem C4_forwarded_for_sent (backend : url.URL) (prefix : string)
    (w : World http.Request) (teTrailers : bool) (reqUpType clientIP : string) :
  let sent :=
    httputil.ServeHTTP_outreq_Header teTrailers reqUpType (Some clientIP)
      (http.req_Header (result (proxy.Director backend prefix) w)) in
  http.Header_Values "X-Forwarded-For" sent = [clientIP]
  ∧ http.Header_Values "X-Forwarded-Host" sent = []
  ∧ http.Header_Values "X-Real-IP" sent = []
  ∧ http.Header_Values "X-Forwarded-Proto" sent = [].
Proof.
  intros sent. subst sent. rewrite Director_header.
  set (h := sanitized _).
  assert (∀ k, k ∈ (textproto.CanonicalMIMEHeaderKey <$> forwardingHeaders) →
            h !! k = None) as Hgone
    by (intros k Hk; by apply sanitized_lookup_forwarding).
  rewrite forwardingHeaders_canonical in Hgone.
  unfold http.Header_Values.
  change (textproto.CanonicalMIMEHeaderKey "X-Forwarded-For")
    with "X-Forwarded-For".
  change (textproto.CanonicalMIMEHeaderKey "X-Forwarded-Host")
    with "X-Forwarded-Host".
  change (textproto.CanonicalMIMEHeaderKey "X-Real-IP") with "X-Real-Ip".
  change (textproto.CanonicalMIMEHeaderKey "X-Forwarded-Proto")
    with "X-Forwarded-Proto".
  rewrite ServeHTTP_outreq_Header_forwarded_for
    by (apply Hgone; rewrite !elem_of_cons; auto).
  rewrite !ServeHTTP_outreq_Header_None; [done|..];
    first [apply Hgone; rewrite !elem_of_cons; by auto
          |rewrite !not_elem_of_cons; repeat split; try done;
           apply not_elem_of_nil].
Qed.

(** The request [GET /api/users] from [192.0.2.1:40000], with and
    without an [X-Forwarded-For] header of its own: the backend is sent
    [X-Forwarded-For: 192.0.2.1]. *)
Example C4_failing_input :
  let sent (h : http.Header) :=
    httputil.ServeHTTP_outreq_Header false "" (Some "192.0.2.1")
      (http.req_Header (result (proxy.Director example_backend "/api/")
                          (inbound "GET" "/api/users" "" h))) in
  sent ∅ !! "X-Forwarded-For" = Some ["192.0.2.1"]
  ∧ sent sample_headers !! "X-Forwarded-For" = Some ["192.0.2.1"]
  ∧ sent sample_headers !! "Cookie" = Some ["session=abc123"; "theme=dark"].
Proof. repeat split; vm_compute; reflexivity. Qed.

(** C5.  The scheme and host of the outbound URL are the backend's and
    the query string and the method are the inbound ones.  With the
    flags [-prefix /api/] and [-backend https://example.com/v1/], the
    request [GET /api/users?x=1] goes out as
    [GET https://example.com/v1/users?x=1], whatever its other fields. *)
Theorem C5_target_and_query :
  (∀ (backend : url.URL) (prefix : string) (w : World http.Request),
     let out := result (proxy.Director backend prefix) w in
     url.Scheme (http.URL out) = url.Scheme backend
     ∧ url.Host (http.URL out) = url.Host backend
     ∧ url.RawQuery (http.URL out) = url.RawQuery (http.URL (target w))
     ∧ http.Method out = http.Method (target w))
  ∧ init "/api/" "https://example.com/v1/" ":8080"
    = Some (mkFlags "/api/" "https://example.com/v1/" ":8080")
  ∧ (∀ (scheme uhost host body addr : string) (h : http.Header)
       (log : list string),
       let w := mkWorld
                  (http.mkRequest "GET"
                     (url.mkURL scheme uhost "/api/users" "x=1")
                     host h body addr) log in
       let out := result (proxy.Director example_backend "/api/") w in
       http.Method out = "GET"
       ∧ http.URL out = url.mkURL "https" "example.com" "/v1/users" "x=1"
       ∧ url.String (http.URL out) = "https://example.com/v1/users?x=1").
Proof.
  split; [|split]; [|reflexivity|].
  { intros backend prefix w out. subst out. by rewrite Director_result. }
  intros scheme uhost host body addr h log w out. subst out.
  rewrite Director_result. repeat split; reflexivity.
Qed.

(** ** The response inspector *)

Section read_only_facts.

Context {T : Type}.

Lemma read_only_ret {A : Type} (x : A) : read_only (mret x : M T A).
Proof. by intros w. Qed.

Lemma read_only_load : read_only (load : M T T).
Proof. by intros w. Qed.

Lemma read_only_log_Printf (line : string) :
  read_only (log_Printf line : M T unit).
Proof. by intros w. Qed.

Lemma read_only_bind {A B : Type} (m : M T A) (f : A → M T B) :
  read_only m → (∀ a, read_only (f a)) → read_only (m ≫= f).
Proof.
  intros Hm Hf w. unfold mbind, M_bind.
  specialize (Hm w). destruct (m w) as [a w']. simpl in Hm.
  by rewrite Hf.
Qed.

Lemma read_only_for_range {A : Type} (xs : list A) (body : nat → A → M T unit) :
  (∀ i x, read_only (body i x)) → ∀ i, read_only (for_range i xs body).
Proof.
  intros Hbody. induction xs as [|x xs IH]; intros i; simpl.
  - apply read_only_ret.
  - apply read_only_bind; [apply Hbody|]. intros _. apply IH.
Qed.

Lemma returned_bind {A B : Type} (m : M T A) (f : A → M T B) (b : B) :
  (∀ a w, returned (f a) w = b) → ∀ w, returned (m ≫= f) w = b.
Proof.
  intros Hf w. unfold returned, mbind, M_bind.
  destruct (m w) as [a w']. apply Hf.
Qed.

End read_only_facts.

Lemma ModifyResponse_read_only : read_only proxy.ModifyResponse.
Proof.
  unfold proxy.ModifyResponse.
  apply read_only_bind; [apply read_only_load|]. intros resp.
  apply read_only_bind; [apply read_only_log_Printf|]. intros _.
  apply read_only_bind; [apply read_only_load|]. intros resp'.
  apply read_only_bind.
  { destruct (0 <? _)%nat; [|apply read_only_ret].
    apply read_only_bind; [apply read_only_log_Printf|]. intros _.
    apply read_only_for_range. intros i x. apply read_only_log_Printf. }
  intros _. apply read_only_bind; [|intros _; apply read_only_ret].
  apply read_only_for_range. intros _ header.
  apply read_only_bind; [apply read_only_load|]. intros r.
  destruct (0 <? _)%nat; [|apply read_only_ret].
  apply read_only_for_range. intros i x. apply read_only_log_Printf.
Qed.

Lemma ModifyResponse_returns_nil (w : World http.Response) :
  returned proxy.ModifyResponse w = None.
Proof.
  unfold proxy.ModifyResponse.
  repeat (apply returned_bind; intros ??).
  reflexivity.
Qed.

(** C7.  [ModifyResponse] returns [nil] for every backend response and
    leaves the response as it received it: status code, headers (the
    [Set-Cookie] values among them, in their order) and body are the
    backend's. *)
Theorem C7_response_untouched (w : World http.Response) :
  let resp := target w in
  let resp' := result proxy.ModifyResponse w in
  returned proxy.ModifyResponse w = None
  ∧ resp' = resp
  ∧ http.StatusCode resp' = http.StatusCode resp
  ∧ http.resp_Header resp' = http.resp_Header resp
  ∧ http.Header_Values "Set-Cookie" (http.resp_Header resp')
    = http.Header_Values "Set-Cookie" (http.resp_Header resp)
  ∧ http.resp_Body resp' = http.resp_Body resp.
Proof.
  intros resp resp'.
  assert (resp' = resp) as -> by apply ModifyResponse_read_only.
  split; [apply ModifyResponse_returns_nil|done].
Qed.

(** The second scenario of the specification: a [200] response with two
    [Set-Cookie] headers. *)
Example ModifyResponse_two_cookies :
  let resp' := result proxy.ModifyResponse sample_response in
  http.StatusCode resp' = 200
  ∧ http.Header_Values "Set-Cookie" (http.resp_Header resp')
    = ["a=1; Path=/"; "b=2; HttpOnly"]
  ∧ logged (proxy.ModifyResponse sample_response).2
    = ["Response received: 200 OK"; "Found 2 Set-Cookie headers";
       "Set-Cookie[0]: a=1; Path=/"; "Set-Cookie[1]: b=2; HttpOnly";
       "Response Header Content-Type: application/json"].
Proof. repeat split; vm_compute; reflexivity. Qed.

(** ** The transport policy *)

(** C8.  The transport literal: certificate verification off, 60 s
    response-header timeout, 120 s idle-connection timeout, at most 100
    idle connections and 10 per host, 30 s dial timeout, 30 s keep-alive
    period, HTTP/2 attempted. *)
Theorem C8_transport_policy :
  let t := proxy.Transport in
  tls.InsecureSkipVerify (http.TLSClientConfig t) = true
  ∧ http.ResponseHeaderTimeout t = 60 * time.Second
  ∧ http.IdleConnTimeout t = 120 * time.Second
  ∧ http.MaxIdleConns t = 100
  ∧ http.MaxIdleConnsPerHost t = 10
  ∧ net.Timeout (http.DialContext t) = 30 * time.Second
  ∧ net.KeepAlive (http.DialContext t) = 30 * time.Second
  ∧ http.ForceAttemptHTTP2 t = true
  ∧ time.Seconds <$> [http.ResponseHeaderTimeout t; http.IdleConnTimeout t;
                      net.Timeout (http.DialContext t);
                      net.KeepAlive (http.DialContext t)]
    = [60; 120; 30; 30]
  ∧ Forall (λ d, 0 < d < 2 ^ 63)
      [http.ResponseHeaderTimeout t; http.IdleConnTimeout t;
       net.Timeout (http.DialContext t); net.KeepAlive (http.DialContext t)].
Proof.
  repeat split; try reflexivity.
  repeat constructor; vm_compute; reflexivity.
Qed.

(** ** The error classifier *)

Lemma Error_status (msg : string) (code : Z) (w : World http.ResponseWriter) :
  http.WStatus (target w) = None →
  http.WStatus (result (http.Error msg code) w) = Some code.
Proof.
  intros H. unfold result, http.Error, mbind, M_bind, update. simpl.
  unfold http.Write, http.WriteHeader. simpl. rewrite H. reflexivity.
Qed.

Lemma ErrorHandler_status (r : http.Request) (err : string)
    (w : World http.ResponseWriter) :
  http.WStatus (target w) = None →
  http.WStatus (result (proxy.ErrorHandler r err) w) =
    Some (if strings.Contains err "timeout" then http.StatusGatewayTimeout
          else if strings.Contains err "connection refused"
               then http.StatusServiceUnavailable
               else http.StatusBadGateway).
Proof.
  intros H. unfold proxy.ErrorHandler.
  set (line := _ +:+ _).
  change (result (log_Printf line ≫= _) w) with
    (result (if strings.Contains err "timeout" then
               http.Error "Gateway Timeout" http.StatusGatewayTimeout
             else if strings.Contains err "connection refused" then
               http.Error "Service Unavailable" http.StatusServiceUnavailable
             else http.Error "Bad Gateway" http.StatusBadGateway)
            (log_Printf line w).2).
  destruct (strings.Contains err "timeout");
    [|destruct (strings.Contains err "connection refused")];
    by apply Error_status.
Qed.

(** C2 (amended).  For every transport failure handed to
    [ErrorHandler], the status written to the caller is 504 whenever
    the description contains [timeout], 503 whenever it contains
    [connection refused] and does not contain [timeout], and 502
    whenever it contains neither. *)
Theorem C2_status_by_description (r : http.Request) (err : string)
    (w : World http.ResponseWriter) :
  let status := http.WStatus (result (proxy.ErrorHandler r err) w) in
  http.WStatus (target w) = None →
  (strings.Contains err "timeout" = true → status = Some 504)
  ∧ (strings.Contains err "timeout" = false →
     strings.Contains err "connection refused" = true → status = Some 503)
  ∧ (strings.Contains err "timeout" = false →
     strings.Contains err "connection refused" = false → status = Some 502).
Proof.
  intros status Hw. subst status. rewrite (ErrorHandler_status _ _ _ Hw).
  repeat split; intros; by repeat match goal with H : _ = _ |- _ => rewrite H end.
Qed.

Lemma C2_status_by_description_witness :
  let r := target (inbound "GET" "/api/users" "" ∅) in
  http.WStatus (target fresh_writer) = None
  ∧ strings.Contains "dial tcp 192.0.2.9:443: i/o timeout" "timeout" = true
  ∧ http.WStatus
      (result (proxy.ErrorHandler r "dial tcp 192.0.2.9:443: i/o timeout")
         fresh_writer) = Some 504
  ∧ strings.Contains "dial tcp 192.0.2.9:443: connect: connection refused"
      "timeout" = false
  ∧ strings.Contains "dial tcp 192.0.2.9:443: connect: connection refused"
      "connection refused" = true
  ∧ http.WStatus
      (result (proxy.ErrorHandler r
                 "dial tcp 192.0.2.9:443: connect: connection refused")
         fresh_writer) = Some 503
  ∧ strings.Contains "EOF" "timeout" = false
  ∧ strings.Contains "EOF" "connection refused" = false
  ∧ http.WStatus (result (proxy.ErrorHandler r "EOF") fresh_writer) = Some 502.
Proof.
  intros r.
  pose proof (C2_status_by_description r
                "dial tcp 192.0.2.9:443: i/o timeout" fresh_writer eq_refl)
    as (H504 & _ & _).
  pose proof (C2_status_by_description r
                "dial tcp 192.0.2.9:443: connect: connection refused"
                fresh_writer eq_refl)
    as (_ & H503 & _).
  pose proof (C2_status_by_description r "EOF" fresh_writer eq_refl)
    as (_ & _ & H502).
  split; [reflexivity|]. split; [reflexivity|]. split; [exact (H504 eq_refl)|].
  split; [reflexivity|]. split; [reflexivity|].
  split; [exact (H503 eq_refl eq_refl)|].
  split; [reflexivity|]. split; [reflexivity|].
  exact (H502 eq_refl eq_refl).
Defined.

(** C2 as stated fails: a description that contains [connection
    refused] and also [timeout] is answered with 504, not 503. *)
Lemma C2_counterexample_both_substrings :
  let r := target (inbound "GET" "/api/users" "" ∅) in
  let err := "dial tcp: lookup timeout-svc on 10.0.0.2:53: read udp 10.0.0.1:4242->10.0.0.2:53: read: connection refused" in
  strings.Contains err "connection refused" = true
  ∧ http.WStatus (result (proxy.ErrorHandler r err) fresh_writer) = Some 504
  ∧ http.WStatus (result (proxy.ErrorHandler r err) fresh_writer) ≠ Some 503.
Proof. repeat split; [vm_compute; reflexivity..|discriminate]. Qed.

(** C10.  [ErrorHandler] looks for [timeout] before [connection
    refused]: a description that contains both is answered with 504 and
    not with 503; and for every description the status written is one
    of 504, 503 and 502. *)
Theorem C10_timeout_first_and_total (r : http.Request) (err : string)
    (w : World http.ResponseWriter) :
  let status := http.WStatus (result (proxy.ErrorHandler r err) w) in
  http.WStatus (target w) = None →
  (strings.Contains err "timeout" = true →
   strings.Contains err "connection refused" = true →
   status = Some 504 ∧ status ≠ Some 503)
  ∧ (status = Some 504 ∨ status = Some 503 ∨ status = Some 502)
  ∧ (status = Some 504 ↔ strings.Contains err "timeout" = true).
Proof.
  intros status Hw. subst status. rewrite (ErrorHandler_status _ _ _ Hw).
  destruct (strings.Contains err "timeout");
    destruct (strings.Contains err "connection refused");
    repeat split; try discriminate; auto; try (intros; discriminate).
Qed.

Lemma C10_timeout_first_and_total_witness :
  let r := target (inbound "GET" "/api/users" "" ∅) in
  let err := "connection refused after timeout" in
  http.WStatus (target fresh_writer) = None
  ∧ strings.Contains err "timeout" = true
  ∧ strings.Contains err "connection refused" = true
  ∧ http.WStatus (result (proxy.ErrorHandler r err) fresh_writer) = Some 504.
Proof.
  intros r err.
  pose proof (C10_timeout_first_and_total r err fresh_writer eq_refl)
    as (Hboth & _ & _).
  split; [reflexivity|]. split; [reflexivity|]. split; [reflexivity|].
  exact (proj1 (Hboth eq_refl eq_refl)).
Defined.

(** ** What the closures write to the logger *)

Section emits_facts.

Context {T : Type}.

Lemma emits_ret {A : Type} (x : A) : emits (mret x : M T A) (λ _, x) (λ _, []).
Proof. intros [t l]. unfold mret, M_ret. simpl. by rewrite app_nil_r. Qed.

Lemma emits_load : emits (load : M T T) (λ t, t) (λ _, []).
Proof. intros [t l]. unfold load. simpl. by rewrite app_nil_r. Qed.

Lemma emits_log_Printf (line : string) :
  emits (log_Printf line : M T unit) (λ _, tt) (λ _, [line]).
Proof. by intros [t l]. Qed.

Lemma emits_bind {A B : Type} (m : M T A) (f : A → M T B)
    (a : T → A) (g : T → list string)
    (b : A → T → B) (h : A → T → list string) :
  emits m a g → (∀ x, emits (f x) (b x) (h x)) →
  emits (m ≫= f) (λ t, b (a t) t) (λ t, g t ++ h (a t) t).
Proof.
  intros Hm Hf w. unfold mbind, M_bind. rewrite (Hm w), (Hf _ _). simpl.
  by rewrite app_assoc.
Qed.

Lemma emits_ext {A : Type} (m : M T A) (a a' : T → A)
    (g g' : T → list string) :
  emits m a g → (∀ t, a t = a' t) → (∀ t, g t = g' t) → emits m a' g'.
Proof. intros Hm Ha Hg w. by rewrite (Hm w), Ha, Hg. Qed.

Lemma emits_for_range {A : Type} (xs : list A) (body : nat → A → M T unit)
    (f : T → nat → A → list string) :
  (∀ i x, emits (body i x) (λ _, tt) (λ t, f t i x)) →
  ∀ i, emits (for_range i xs body) (λ _, tt) (λ t, range_lines (f t) i xs).
Proof.
  intros Hbody. induction xs as [|x xs IH]; intros i; simpl.
  - apply emits_ret.
  - eapply emits_ext.
    + apply (emits_bind (body i x) (λ _, for_range (S i) xs body)
               (λ _, tt) (λ t, f t i x) (λ _ _, tt)
               (λ _ t, range_lines (f t) (S i) xs)); [apply Hbody|].
      intros _. apply IH.
    + done.
    + done.
Qed.

End emits_facts.

Lemma range_lines_single {A : Type} (g : nat → A → string) (i : nat)
    (xs : list A) :
  range_lines (λ j x, [g j x]) i xs = imap (λ j, g (i + j)%nat) xs.
Proof.
  revert i g. induction xs as [|x xs IH]; intros i g; simpl; [done|].
  rewrite Nat.add_0_r. f_equal. rewrite IH. apply imap_ext.
  intros j y _. simpl. f_equal. lia.
Qed.

Lemma range_lines_const {A : Type} (g : A → list string) (i : nat)
    (xs : list A) :
  range_lines (λ _, g) i xs = mjoin (g <$> xs).
Proof.
  revert i. induction xs as [|x xs IH]; intros i; simpl; [done|].
  by rewrite IH.
Qed.

Lemma range_lines_elem_of {A : Type} (f : nat → A → list string) (i : nat)
    (xs : list A) (x : A) (line : string) :
  x ∈ xs → (∀ j, line ∈ f j x) → line ∈ range_lines f i xs.
Proof.
  intros Hx Hline. revert i.
  induction xs as [|y xs IH]; intros i; [by apply elem_of_nil in Hx|].
  simpl. apply elem_of_app. apply elem_of_cons in Hx as [->|Hx].
  - left. apply Hline.
  - right. by apply IH.
Qed.

Lemma range_lines_map {A : Type} (g : A → string) (i : nat) (xs : list A) :
  range_lines (λ _ x, [g x]) i xs = g <$> xs.
Proof.
  revert i. induction xs as [|x xs IH]; intros i; simpl; [done|].
  by rewrite IH.
Qed.

Lemma ModifyResponse_cookies_emits (cookies : list string) :
  emits (T := http.Response)
    (if (0 <? length cookies)%nat then
       log_Printf ("Found " +:+ itoa (length cookies) +:+ " Set-Cookie headers");;
       for_range 0 cookies (λ i cookie,
         log_Printf ("Set-Cookie[" +:+ itoa i +:+ "]: " +:+ cookie))
     else mret tt)
    (λ _, tt)
    (λ _, if (0 <? length cookies)%nat then
            ("Found " +:+ itoa (length cookies) +:+ " Set-Cookie headers")
            :: imap (λ i cookie, "Set-Cookie[" +:+ itoa i +:+ "]: " +:+ cookie)
                 cookies
          else []).
Proof.
  destruct (0 <? length cookies)%nat; [|apply emits_ret].
  intros w. unfold mbind, M_bind. rewrite emits_log_Printf.
  rewrite (emits_for_range cookies _
             (λ _ i cookie, ["Set-Cookie[" +:+ itoa i +:+ "]: " +:+ cookie]));
    [|intros i x; apply emits_log_Printf].
  simpl. rewrite range_lines_single, <- app_assoc. done.
Qed.

Lemma ModifyResponse_headers_emits :
  emits (T := http.Response)
    (for_range 0 proxy.importantHeaders (λ _ header,
       resp ← load;
       let values := http.Header_Values header (http.resp_Header resp) in
       if (0 <? length values)%nat then
         for_range 0 values (λ _ value,
           log_Printf ("Response Header " +:+ header +:+ ": " +:+ value))
       else mret tt))
    (λ _, tt)
    (λ resp, mjoin ((λ header,
       (λ value, "Response Header " +:+ header +:+ ": " +:+ value)
       <$> http.Header_Values header (http.resp_Header resp))
     <$> proxy.importantHeaders)).
Proof.
  eapply emits_ext;
    [apply (emits_for_range proxy.importantHeaders _
              (λ resp _ header,
                 (λ value, "Response Header " +:+ header +:+ ": " +:+ value)
                 <$> http.Header_Values header (http.resp_Header resp)))
    |done|intros resp; apply range_lines_const].
  intros _ header w. unfold mbind, M_bind, load.
  destruct (http.Header_Values header (http.resp_Header (target w)))
    as [|v vs] eqn:E.
  - simpl. by rewrite emits_ret.
  - change (0 <? length (v :: vs))%nat with true. cbv iota.
    rewrite (emits_for_range (v :: vs) _
               (λ _ _ value,
                  ["Response Header " +:+ header +:+ ": " +:+ value]));
      [|intros i x; apply emits_log_Printf].
    by rewrite range_lines_map.
Qed.

Lemma bind_emits {T A B : Type} (m : M T A) (f : A → M T B) (a : T → A)
    (g : T → list string) (w : World T) :
  emits m a g →
  (m ≫= f) w = f (a (target w)) (mkWorld (target w) (logged w ++ g (target w))).
Proof. intros H. unfold mbind, M_bind. by rewrite (H w). Qed.

Lemma ModifyResponse_run (w : World http.Response) :
  proxy.ModifyResponse w =
    (None, mkWorld (target w) (logged w ++ response_lines (target w))).
Proof.
  unfold proxy.ModifyResponse, response_lines.
  rewrite (bind_emits _ _ _ _ _ emits_load).
  rewrite (bind_emits _ _ _ _ _ (emits_log_Printf _)).
  rewrite (bind_emits _ _ _ _ _ emits_load).
  rewrite (bind_emits _ _ _ _ _ (ModifyResponse_cookies_emits _)).
  rewrite (bind_emits _ _ _ _ _ ModifyResponse_headers_emits).
  cbn [target logged]. unfold mret, M_ret.
  by rewrite !app_nil_r, <- !app_assoc.
Qed.

(** X12.  For every backend response, [ModifyResponse] returns [nil],
    leaves the response alone and adds to the logger, after the lines
    already there: the status line; when there is a [Set-Cookie]
    header, their count and one numbered line per value, in order;
    then one line per value of [Content-Type], [Content-Length],
    [Cache-Control] and [Access-Control-Allow-Origin], in that order. *)
Theorem ModifyResponse_writes (w : World http.Response) :
  proxy.ModifyResponse w =
    (None, mkWorld (target w) (logged w ++ response_lines (target w))).
Proof. apply ModifyResponse_run. Qed.

(** X13.  A response that has no [Set-Cookie] value and no value for any
    of the four headers of interest adds the status line to the logger
    and nothing else. *)
Theorem ModifyResponse_status_line_only (w : World http.Response) :
  (∀ name : string, name ∈ "Set-Cookie" :: proxy.importantHeaders →
     http.Header_Values name (http.resp_Header (target w)) = []) →
  logged (proxy.ModifyResponse w).2 =
    logged w ++ ["Response received: " +:+ http.Status (target w)].
Proof.
  intros Hnone. rewrite ModifyResponse_run. cbn [snd logged].
  unfold response_lines, proxy.importantHeaders.
  rewrite !fmap_cons, fmap_nil.
  rewrite !Hnone by (repeat first [apply list_elem_of_here
                                  |apply list_elem_of_further]).
  done.
Qed.

Lemma ModifyResponse_status_line_only_witness :
  let w := mkWorld (http.mkResponse "204 No Content" 204
                      (<["Date" := ["Mon, 02 Nov 2026 08:00:00 GMT"]]> ∅) "")
                   ["earlier line"] in
  (∀ name : string, name ∈ "Set-Cookie" :: proxy.importantHeaders →
     http.Header_Values name (http.resp_Header (target w)) = [])
  ∧ logged (proxy.ModifyResponse w).2 =
      ["earlier line"; "Response received: 204 No Content"].
Proof.
  intros w.
  assert (∀ name : string, name ∈ "Set-Cookie" :: proxy.importantHeaders →
            http.Header_Values name (http.resp_Header (target w)) = []) as H.
  { intros name Hname. unfold proxy.importantHeaders in Hname.
    rewrite !elem_of_cons, elem_of_nil in Hname.
    destruct Hname as [->|[->|[->|[->|[->|[]]]]]]; reflexivity. }
  split; [exact H|]. exact (ModifyResponse_status_line_only w H).
Defined.

(** ** What [ErrorHandler] replies and what it keeps to the logger *)

Lemma Contains_app_l (s b sub : string) :
  strings.Contains s sub = true → strings.Contains (s +:+ b) sub = true.
Proof.
  induction s as [|c s IH].
  - simpl. rewrite orb_false_r. intros H.
    destruct sub; [by destruct b|done].
  - cbn [strings.Contains]. rewrite string_app_cons. cbn [strings.Contains].
    intros [H|H]%orb_true_iff; apply orb_true_iff.
    + left. rewrite <- string_app_cons. by apply HasPrefix_app_r.
    + right. by apply IH.
Qed.

Lemma Contains_app_r (a s sub : string) :
  strings.Contains s sub = true → strings.Contains (a +:+ s) sub = true.
Proof.
  intros H. induction a as [|c a IH]; [done|].
  rewrite string_app_cons. cbn [strings.Contains].
  apply orb_true_iff. by right.
Qed.

Lemma Error_run (msg : string) (code : Z) (w : World http.ResponseWriter) :
  http.Error msg code w =
    (tt, mkWorld
           (http.Write (msg +:+ String "010" "")
              (http.WriteHeader code
                 (http.set_WHeader (http.Header_Set "X-Content-Type-Options" "nosniff")
                    (http.set_WHeader
                       (http.Header_Set "Content-Type" "text/plain; charset=utf-8")
                       (http.set_WHeader (http.Header_Del "Content-Length")
                          (target w))))))
           (logged w)).
Proof. reflexivity. Qed.

Lemma Error_body (msg : string) (code : Z) (w : World http.ResponseWriter) :
  http.WBody (result (http.Error msg code) w) =
    http.WBody (target w) +:+ msg +:+ String "010" "".
Proof.
  unfold result. rewrite Error_run. cbn [snd target].
  unfold http.Write, http.WriteHeader, http.set_WHeader. cbn [http.WStatus].
  by destruct (http.WStatus (target w)).
Qed.

Lemma WHeader_WriteHeader (code : Z) (w : http.ResponseWriter) :
  http.WHeader (http.WriteHeader code w) = http.WHeader w.
Proof. unfold http.WriteHeader. by destruct (http.WStatus w). Qed.

Lemma WHeader_Write (p : string) (w : http.ResponseWriter) :
  http.WHeader (http.Write p w) = http.WHeader w.
Proof. unfold http.Write. cbn [http.WHeader]. apply WHeader_WriteHeader. Qed.

Lemma Error_content_type (msg : string) (code : Z)
    (w : World http.ResponseWriter) :
  http.Header_Values "Content-Type"
    (http.WHeader (result (http.Error msg code) w))
  = ["text/plain; charset=utf-8"].
Proof.
  unfold result. rewrite Error_run. cbn [snd target].
  rewrite WHeader_Write, WHeader_WriteHeader.
  unfold http.Header_Values, http.Header_Set, http.set_WHeader.
  cbn [http.WHeader].
  change (textproto.CanonicalMIMEHeaderKey "Content-Type") with "Content-Type".
  change (textproto.CanonicalMIMEHeaderKey "X-Content-Type-Options")
    with "X-Content-Type-Options".
  by rewrite lookup_insert_ne, lookup_insert_eq.
Qed.

(** X10.  Whatever the failure is, the reply [ErrorHandler] writes is one
    of three fixed texts followed by a newline, sent as plain text, and
    it goes with its own status when no status was written before: the
    description of the failure goes to the logger, with the method and
    the path of the request, and not into the reply body. *)
Theorem ErrorHandler_reply (r : http.Request) (err : string)
    (w : World http.ResponseWriter) :
  let out := (proxy.ErrorHandler r err w).2 in
  ∃ (code : Z) (msg : string),
    (code, msg) ∈ error_replies
    ∧ http.WBody (target out) =
        http.WBody (target w) +:+ msg +:+ String "010" ""
    ∧ (http.WStatus (target w) = None →
       http.WStatus (target out) = Some code)
    ∧ http.Header_Values "Content-Type" (http.WHeader (target out))
      = ["text/plain; charset=utf-8"]
    ∧ logged out =
        logged w ++ ["Proxy error for " +:+ http.Method r +:+ " "
                     +:+ url.Path (http.URL r) +:+ ": " +:+ err].
Proof.
  intros out. subst out. unfold proxy.ErrorHandler.
  rewrite (bind_emits _ _ _ _ _ (emits_log_Printf _)).
  set (w' := mkWorld _ _).
  assert (∀ msg code,
    http.WBody (target (http.Error msg code w').2)
      = http.WBody (target w) +:+ msg +:+ String "010" ""
    ∧ (http.WStatus (target w) = None →
       http.WStatus (target (http.Error msg code w').2) = Some code)
    ∧ http.Header_Values "Content-Type"
        (http.WHeader (target (http.Error msg code w').2))
      = ["text/plain; charset=utf-8"]
    ∧ logged (http.Error msg code w').2 = logged w') as H.
  { intros msg code. split; [apply (Error_body msg code w')|].
    split; [intros Hw; by apply (Error_status msg code w')|].
    split; [apply (Error_content_type msg code w')|]. by rewrite Error_run. }
  destruct (strings.Contains err "timeout");
    [|destruct (strings.Contains err "connection refused")];
    eexists _, _; (split; [|apply H]); unfold error_replies;
    rewrite !elem_of_cons; auto.
Qed.

Lemma ErrorHandler_reply_witness :
  let r := target (inbound "POST" "/api/login" "" ∅) in
  http.WStatus (target fresh_writer) = None
  ∧ ∃ (code : Z) (msg : string),
      (code, msg) ∈ error_replies
      ∧ http.WBody (target (proxy.ErrorHandler r "EOF" fresh_writer).2)
        = "" +:+ msg +:+ String "010" ""
      ∧ http.WStatus (target (proxy.ErrorHandler r "EOF" fresh_writer).2)
        = Some code.
Proof.
  intros r. split; [reflexivity|].
  destruct (ErrorHandler_reply r "EOF" fresh_writer)
    as (code & msg & Hin & Hbody & Hstatus & _).
  exists code, msg. split; [exact Hin|]. split; [exact Hbody|].
  exact (Hstatus eq_refl).
Defined.

(** X11.  A failure whose description contains [timeout] is answered
    with 504 however much text is put before and after the
    description, as wrapping an error does. *)
Theorem ErrorHandler_wrapped_timeout (r : http.Request)
    (before err after : string) (w : World http.ResponseWriter) :
  http.WStatus (target w) = None →
  strings.Contains err "timeout" = true →
  http.WStatus (result (proxy.ErrorHandler r (before +:+ err +:+ after)) w)
  = Some http.StatusGatewayTimeout.
Proof.
  intros Hw Herr. rewrite (ErrorHandler_status _ _ _ Hw).
  by rewrite (Contains_app_r before _ _ (Contains_app_l err after _ Herr)).
Qed.

Lemma ErrorHandler_wrapped_timeout_witness :
  let r := target (inbound "GET" "/api/users" "" ∅) in
  http.WStatus (target fresh_writer) = None
  ∧ strings.Contains "i/o timeout" "timeout" = true
  ∧ http.WStatus
      (result (proxy.ErrorHandler r
                 ("dial tcp 192.0.2.9:443: " +:+ "i/o timeout" +:+ " (retry 2)"))
         fresh_writer)
    = Some 504.
Proof.
  intros r. split; [reflexivity|]. split; [reflexivity|].
  exact (ErrorHandler_wrapped_timeout r "dial tcp 192.0.2.9:443: "
           "i/o timeout" " (retry 2)" fresh_writer eq_refl eq_refl).
Defined.

(** ** The server handler *)

Section handler_facts.

Variable ServeHTTP : M (http.ResponseWriter * http.Request) unit.
Variable Cookies : http.Request → list Cookie.
Variable range_order : http.Header → list (string * list string).

Lemma Handler_run (w : World (http.ResponseWriter * http.Request)) :
  Handler ServeHTTP Cookies range_order w =
    ServeHTTP
      (mkWorld (target w)
         (logged w ++
          request_lines (range_order (http.req_Header (target w).2))
            (Cookies (target w).2) (target w).2)).
Proof.
  unfold Handler, request_lines.
  rewrite (bind_emits _ _ _ _ _ emits_load).
  rewrite (bind_emits _ _ _ _ _ (emits_log_Printf _)).
  rewrite (bind_emits _ _ _ _ _ (emits_log_Printf _)).
  cbn [target logged].
  rewrite (bind_emits _ _ (λ _, tt)
             (λ _, mjoin ((λ entry : string * list string,
                (λ value, "  " +:+ entry.1 +:+ ": " +:+ value) <$> entry.2)
                <$> range_order (http.req_Header (target w).2)))).
  2:{ eapply emits_ext;
        [apply (emits_for_range _ _
                  (λ _ _ (entry : string * list string),
                     (λ value, "  " +:+ entry.1 +:+ ": " +:+ value)
                     <$> entry.2))
        |done|intros t; apply range_lines_const].
      intros _ entry. eapply emits_ext;
        [apply (emits_for_range _ _
                  (λ _ _ value, ["  " +:+ entry.1 +:+ ": " +:+ value]))
        |done|intros t; apply range_lines_map].
      intros _ value. apply emits_log_Printf. }
  cbn [target logged].
  rewrite (bind_emits _ _ (λ _, tt)
             (λ _, if (0 <? length (Cookies (target w).2))%nat then
                     "Request Cookies:"
                     :: ((λ cookie, "  " +:+ Name cookie +:+ ": " +:+ Value cookie)
                         <$> Cookies (target w).2)
                   else [])).
  2:{ destruct (0 <? length (Cookies (target w).2))%nat; [|apply emits_ret].
      intros v. rewrite (bind_emits _ _ _ _ _ (emits_log_Printf _)).
      rewrite (emits_for_range _ _
                 (λ _ _ cookie,
                    ["  " +:+ Name cookie +:+ ": " +:+ Value cookie]));
        [|intros i x; apply emits_log_Printf].
      cbn [target logged]. by rewrite range_lines_map, <- app_assoc. }
  cbn [target logged]. by rewrite !app_nil_r, <- !app_assoc.
Qed.

End handler_facts.

(** X14.  The handler of the server hands the response writer and the
    request to [proxy.ServeHTTP] exactly as it received them, after
    writing to the logger: the request line, a heading, one line per
    header value and, when the request has cookies, a heading and one
    line per cookie.  In whatever order [range] visits the header map,
    every value of every header of the request has its line. *)
Theorem Handler_logs_then_forwards
    (ServeHTTP : M (http.ResponseWriter * http.Request) unit)
    (Cookies : http.Request → list Cookie)
    (range_order : http.Header → list (string * list string))
    (w : World (http.ResponseWriter * http.Request)) :
  let r := (target w).2 in
  let lines :=
    request_lines (range_order (http.req_Header r)) (Cookies r) r in
  Handler ServeHTTP Cookies range_order w =
    ServeHTTP (mkWorld (target w) (logged w ++ lines))
  ∧ (range_order (http.req_Header r) ≡ₚ map_to_list (http.req_Header r) →
     ∀ (name : string) (values : list string) (value : string),
       http.req_Header r !! name = Some values → value ∈ values →
       ("  " +:+ name +:+ ": " +:+ value) ∈ lines).
Proof.
  intros r lines. split; [apply Handler_run|].
  intros Hperm name values value Hname Hvalue. subst lines.
  unfold request_lines. apply elem_of_app. right. apply elem_of_app. left.
  apply list_elem_of_join.
  exists ((λ value, "  " +:+ name +:+ ": " +:+ value) <$> values).
  split;
    [by apply (list_elem_of_fmap_2 (λ value, "  " +:+ name +:+ ": " +:+ value))|].
  apply list_elem_of_fmap. exists (name, values). split; [done|].
  rewrite Hperm. by apply elem_of_map_to_list.
Qed.

Lemma Handler_logs_then_forwards_witness :
  let w := mkWorld (target fresh_writer,
                    target (inbound "GET" "/api/users" "" sample_headers))
                   [] in
  map_to_list sample_headers ≡ₚ map_to_list sample_headers
  ∧ sample_headers !! "Cookie" = Some ["session=abc123"; "theme=dark"]
  ∧ ("theme=dark" ∈ ["session=abc123"; "theme=dark"])
  ∧ ("  Cookie: theme=dark"
     ∈ request_lines (map_to_list sample_headers) []
         (target (inbound "GET" "/api/users" "" sample_headers))).
Proof.
  intros w.
  assert ("theme=dark" ∈ ["session=abc123"; "theme=dark"]) as Hin
    by (apply list_elem_of_further, list_elem_of_here).
  split; [reflexivity|]. split; [reflexivity|]. split; [exact Hin|].
  exact (proj2 (Handler_logs_then_forwards (mret tt) (λ _, []) map_to_list w)
           (reflexivity _) "Cookie" ["session=abc123"; "theme=dark"]
           "theme=dark" eq_refl Hin).
Defined.

(** ** More on [init] *)

(** X1.  [init] ends the process exactly when one of the three flags is
    empty. *)
Theorem init_fatal_iff (prefix backend listen : string) :
  init prefix backend listen = None
  ↔ prefix = "" ∨ backend = "" ∨ listen = "".
Proof.
  unfold init.
  destruct (String.eqb_spec prefix "") as [->|Hp]; [by split; auto|].
  destruct (String.eqb_spec backend "") as [->|Hb]; [by split; auto|].
  destruct (String.eqb_spec listen "") as [->|Hl]; [by split; auto|].
  split; [done|]. by intros [?|[?|?]].
Qed.

(** X2.  When [init] lets the process go on, the frontend prefix starts
    and ends with a slash, the backend URL ends with a slash and the
    listen address is the flag as given. *)
Theorem init_slashes (prefix backend listen : string) (f : Flags) :
  init prefix backend listen = Some f →
  strings.HasPrefix (frontendAPIPrefix f) "/" = true
  ∧ strings.HasSuffix (frontendAPIPrefix f) "/" = true
  ∧ strings.HasSuffix (backendURL f) "/" = true
  ∧ port f = listen.
Proof. apply init_normalized. Qed.

Lemma init_slashes_witness :
  init "api/v1" "https://example.com/v1" ":9090"
  = Some (mkFlags "/api/v1/" "https://example.com/v1/" ":9090")
  ∧ strings.HasPrefix "/api/v1/" "/" = true
  ∧ strings.HasSuffix "/api/v1/" "/" = true
  ∧ strings.HasSuffix "https://example.com/v1/" "/" = true.
Proof.
  split; [reflexivity|].
  destruct (init_slashes "api/v1" "https://example.com/v1" ":9090" _ eq_refl)
    as (H1 & H2 & H3 & _).
  split; [exact H1|]. split; [exact H2|exact H3].
Defined.

(** X3.  [init] only ever adds slashes: the frontend prefix it leaves is
    the flag with at most one slash put in front and one behind, the
    backend URL is the flag with at most one slash behind, and a flag
    that already has its slashes is left as it is. *)
Theorem init_only_adds_slashes (prefix backend listen : string) (f : Flags) :
  init prefix backend listen = Some f →
  (∃ pre post : string,
     pre ∈ [""; "/"] ∧ post ∈ [""; "/"]
     ∧ frontendAPIPrefix f = pre +:+ prefix +:+ post)
  ∧ (backendURL f = backend ∨ backendURL f = backend +:+ "/")
  ∧ (strings.HasPrefix prefix "/" = true →
     strings.HasSuffix prefix "/" = true → frontendAPIPrefix f = prefix)
  ∧ (strings.HasSuffix backend "/" = true → backendURL f = backend).
Proof.
  unfold init.
  destruct (String.eqb prefix ""); [done|].
  destruct (String.eqb backend ""); [done|].
  destruct (String.eqb listen ""); [done|].
  set (p1 := if negb (strings.HasPrefix prefix "/")
             then "/" +:+ prefix else prefix).
  set (p2 := if negb (strings.HasSuffix p1 "/") then p1 +:+ "/" else p1).
  set (b := if negb (strings.HasSuffix backend "/")
            then backend +:+ "/" else backend).
  assert (∃ pre post : string,
     pre ∈ [""; "/"] ∧ post ∈ [""; "/"] ∧ p2 = pre +:+ prefix +:+ post) as H1.
  { subst p2 p1. destruct (strings.HasPrefix prefix "/"); cbn [negb].
    - destruct (strings.HasSuffix prefix "/"); cbn [negb].
      + exists "", "". rewrite string_app_nil_r.
        split; [apply list_elem_of_here|]. split; [apply list_elem_of_here|done].
      + exists "", "/".
        split; [apply list_elem_of_here|].
        split; [apply list_elem_of_further, list_elem_of_here|done].
    - destruct (strings.HasSuffix ("/" +:+ prefix) "/"); cbn [negb].
      + exists "/", "". rewrite string_app_nil_r.
        split; [apply list_elem_of_further, list_elem_of_here|].
        split; [apply list_elem_of_here|done].
      + exists "/", "/". rewrite string_app_assoc.
        split; [apply list_elem_of_further, list_elem_of_here|].
        split; [apply list_elem_of_further, list_elem_of_here|done]. }
  assert (b = backend ∨ b = backend +:+ "/") as H2.
  { subst b. destruct (strings.HasSuffix backend "/"); cbn [negb]; auto. }
  assert (strings.HasPrefix prefix "/" = true →
          strings.HasSuffix prefix "/" = true → p2 = prefix) as H3.
  { intros Hp Hs. subst p2 p1. rewrite Hp. cbn [negb]. by rewrite Hs. }
  assert (strings.HasSuffix backend "/" = true → b = backend) as H4.
  { intros Hs. subst b. by rewrite Hs. }
  clearbody p1 p2 b. intros [= <-]. done.
Qed.

Lemma init_only_adds_slashes_witness :
  init "/api/" "https://example.com/v1/" ":8080"
  = Some (mkFlags "/api/" "https://example.com/v1/" ":8080")
  ∧ strings.HasPrefix "/api/" "/" = true
  ∧ strings.HasSuffix "/api/" "/" = true
  ∧ strings.HasSuffix "https://example.com/v1/" "/" = true
  ∧ frontendAPIPrefix (mkFlags "/api/" "https://example.com/v1/" ":8080")
    = "/api/".
Proof.
  split; [reflexivity|]. split; [reflexivity|]. split; [reflexivity|].
  split; [reflexivity|].
  destruct (init_only_adds_slashes "/api/" "https://example.com/v1/" ":8080"
              _ eq_refl) as (_ & _ & Hprefix & _).
  exact (Hprefix eq_refl eq_refl).
Defined.

Lemma init_fatal_none_listen (prefix backend : string) :
  init prefix backend "" = None.
Proof.
  unfold init. destruct (String.eqb prefix ""); [done|].
  by destruct (String.eqb backend "").
Qed.

Lemma HasPrefix_nonempty (s p : string) :
  strings.HasPrefix s p = true → p ≠ "" → String.eqb s "" = false.
Proof. by destruct s, p. Qed.

Lemma HasSuffix_nonempty (s p : string) :
  strings.HasSuffix s p = true → p ≠ "" → String.eqb s "" = false.
Proof. by destruct s, p. Qed.

(** X4.  Running [init] on the flags [init] left gives the same flags:
    normalising is idempotent. *)
Theorem init_idempotent (prefix backend listen : string) (f : Flags) :
  init prefix backend listen = Some f →
  init (frontendAPIPrefix f) (backendURL f) (port f) = Some f.
Proof.
  intros Hf. destruct (init_normalized _ _ _ _ Hf) as (Hp & Hs & Hb & Hl).
  assert (String.eqb listen "" = false) as Hlisten.
  { destruct (String.eqb_spec listen "") as [->|]; [|done].
    assert (init prefix backend "" = None) as Hnone
      by (apply init_fatal_none_listen).
    congruence. }
  unfold init.
  rewrite (HasPrefix_nonempty _ _ Hp), (HasSuffix_nonempty _ _ Hb) by done.
  rewrite Hl, Hlisten, Hp. cbn [negb]. rewrite Hs, Hb. cbn [negb].
  rewrite <- Hl. by destruct f.
Qed.

Lemma init_idempotent_witness :
  init "api" "http://localhost:3000" ":8080"
  = Some (mkFlags "/api/" "http://localhost:3000/" ":8080")
  ∧ init "/api/" "http://localhost:3000/" ":8080"
    = Some (mkFlags "/api/" "http://localhost:3000/" ":8080").
Proof.
  split; [reflexivity|].
  exact (init_idempotent "api" "http://localhost:3000" ":8080" _ eq_refl).
Defined.

(** ** More on [Director] *)

Lemma string_app_inv_head (a b c : string) : a +:+ b = a +:+ c → b = c.
Proof.
  induction a as [|x a IH]; [done|]. rewrite !string_app_cons.
  intros [= H]. by apply IH.
Qed.

Lemma HasPrefix_length (s p : string) :
  strings.HasPrefix s p = true → (String.length p <= String.length s)%nat.
Proof.
  intros [r ->]%HasPrefix_inv. rewrite string_app_length. lia.
Qed.

Lemma TrimPrefix_no_slash (r : string) :
  strings.HasPrefix r "/" = false → strings.TrimPrefix r "/" = r.
Proof. unfold strings.TrimPrefix. by intros ->. Qed.

Lemma Director_path_prefixed (backend : url.URL) (prefix r : string)
    (w : World http.Request) :
  url.Path (http.URL (target w)) = prefix +:+ r →
  strings.HasPrefix r "/" = false →
  url.Path (http.URL (result (proxy.Director backend prefix) w))
  = url.Path backend +:+ r.
Proof.
  intros HP Hr. rewrite Director_path, HP, originalPath_prefixed.
  destruct (String.eqb_spec r "") as [->|_]; [done|].
  by rewrite TrimPrefix_no_slash.
Qed.

(** X5.  The frontend prefix is not a gate: a path made of a slash and a
    relative path [r] that does not start with the prefix is sent to
    the same backend path as the prefix followed by [r], namely the
    base path followed by [r]. *)
Theorem Director_prefix_not_required (backend : url.URL) (prefix r : string)
    (w1 w2 : World http.Request) :
  url.Path (http.URL (target w1)) = "/" +:+ r →
  url.Path (http.URL (target w2)) = prefix +:+ r →
  strings.HasPrefix ("/" +:+ r) prefix = false →
  strings.HasPrefix r "/" = false →
  url.Path (http.URL (result (proxy.Director backend prefix) w1))
  = url.Path backend +:+ r
  ∧ url.Path (http.URL (result (proxy.Director backend prefix) w2))
    = url.Path backend +:+ r.
Proof.
  intros H1 H2 Hout Hr. split; [|by apply Director_path_prefixed].
  by rewrite Director_path, H1, (originalPath_other _ _ Hout), TrimPrefix_app.
Qed.

Lemma Director_prefix_not_required_witness :
  strings.HasPrefix ("/" +:+ "users") "/api/" = false
  ∧ strings.HasPrefix "users" "/" = false
  ∧ url.Path (http.URL (result (proxy.Director example_backend "/api/")
                          (inbound "GET" "/users" "" ∅)))
    = "/v1/users"
  ∧ url.Path (http.URL (result (proxy.Director example_backend "/api/")
                          (inbound "GET" "/api/users" "" ∅)))
    = "/v1/users".
Proof.
  split; [reflexivity|]. split; [reflexivity|].
  exact (Director_prefix_not_required example_backend "/api/" "users"
           (inbound "GET" "/users" "" ∅) (inbound "GET" "/api/users" "" ∅)
           eq_refl eq_refl eq_refl eq_refl).
Defined.

Lemma TrimPrefix_slash_empty (q : string) :
  strings.TrimPrefix q "/" = "" ↔ q = "" ∨ q = "/".
Proof.
  destruct q as [|c q]; [by split; auto|].
  unfold strings.TrimPrefix. change "/" with (String "/" "") at 1.
  rewrite HasPrefix_cons. destruct (Ascii.eqb_spec "/" c) as [<-|Hc].
  - cbn [strings.HasPrefix String.length strings.slice_from]. split.
    + intros ->. by right.
    + by intros [?|[= ->]].
  - split; [done|]. intros [?|[= ? ?]]; [done|]. by destruct Hc.
Qed.

(** X6.  A request for the frontend prefix without its last slash is not
    taken as a request under the prefix: with the prefix [q/] the path
    [q] goes to the base path followed by [q] without its leading
    slash.  That is the base path itself only when [q] is empty or is
    ["/"]. *)
Theorem Director_prefix_without_slash (backend : url.URL)
    (w : World http.Request) :
  let q := url.Path (http.URL (target w)) in
  let out :=
    url.Path (http.URL (result (proxy.Director backend (q +:+ "/")) w)) in
  strings.HasPrefix q (q +:+ "/") = false
  ∧ out = url.Path backend +:+ strings.TrimPrefix q "/"
  ∧ (out = url.Path backend ↔ q = "" ∨ q = "/").
Proof.
  intros q out.
  assert (strings.HasPrefix q (q +:+ "/") = false) as Hq.
  { destruct (strings.HasPrefix q (q +:+ "/")) eqn:E; [|done].
    apply HasPrefix_length in E. rewrite string_app_length in E.
    simpl in E. lia. }
  assert (out = url.Path backend +:+ strings.TrimPrefix q "/") as Hout.
  { subst out. rewrite Director_path. fold q.
    by rewrite (originalPath_other _ _ Hq). }
  split; [done|]. split; [done|].
  rewrite Hout, <- TrimPrefix_slash_empty. split.
  - intros H. apply (string_app_inv_head (url.Path backend)).
    by rewrite string_app_nil_r.
  - intros ->. apply string_app_nil_r.
Qed.

(** X7.  Two paths under the frontend prefix whose parts after the
    prefix do not start with a slash are sent to the same backend path
    only when they are the same path. *)
Theorem Director_injective_below_prefix (backend : url.URL) (prefix : string)
    (w1 w2 : World http.Request) :
  let P1 := url.Path (http.URL (target w1)) in
  let P2 := url.Path (http.URL (target w2)) in
  strings.HasPrefix P1 prefix = true →
  strings.HasPrefix P2 prefix = true →
  strings.HasPrefix (strings.TrimPrefix P1 prefix) "/" = false →
  strings.HasPrefix (strings.TrimPrefix P2 prefix) "/" = false →
  url.Path (http.URL (result (proxy.Director backend prefix) w1))
  = url.Path (http.URL (result (proxy.Director backend prefix) w2)) →
  P1 = P2.
Proof.
  intros P1 P2 [r1 E1]%HasPrefix_inv [r2 E2]%HasPrefix_inv.
  rewrite E1, E2, !TrimPrefix_app. intros Hr1 Hr2.
  rewrite (Director_path_prefixed backend prefix r1 w1 E1 Hr1).
  rewrite (Director_path_prefixed backend prefix r2 w2 E2 Hr2).
  by intros ->%string_app_inv_head.
Qed.

Lemma Director_injective_below_prefix_witness :
  let w1 := inbound "GET" "/api/users/7" "" ∅ in
  let w2 := inbound "DELETE" "/api/users/7" "force=1" sample_headers in
  strings.HasPrefix "/api/users/7" "/api/" = true
  ∧ strings.HasPrefix (strings.TrimPrefix "/api/users/7" "/api/") "/" = false
  ∧ url.Path (http.URL (result (proxy.Director example_backend "/api/") w1))
    = url.Path (http.URL (result (proxy.Director example_backend "/api/") w2))
  ∧ url.Path (http.URL (target w1)) = url.Path (http.URL (target w2)).
Proof.
  intros w1 w2. split; [reflexivity|]. split; [reflexivity|].
  split; [reflexivity|].
  exact (Director_injective_below_prefix example_backend "/api/" w1 w2
           eq_refl eq_refl eq_refl eq_refl eq_refl).
Defined.

Lemma sanitized_idempotent (h : http.Header) :
  sanitized (sanitized h) = sanitized h.
Proof.
  apply map_eq. intros k.
  destruct (decide (k = "Connection")) as [->|Hk];
    [by rewrite !sanitized_lookup_Connection|].
  destruct (decide (k ∈ textproto.CanonicalMIMEHeaderKey <$> forwardingHeaders))
    as [Hin|Hout]; [by rewrite !sanitized_lookup_forwarding|].
  by rewrite (sanitized_lookup_other (sanitized h)).
Qed.

(** X8.  Running [Director] on a request it has already rewritten
    changes none of the headers, the host, the scheme, the query, the
    method and the body again: of what [Director] sets, only the path
    is computed afresh. *)
Theorem Director_twice (backend : url.URL) (prefix : string)
    (w : World http.Request) :
  let once := (proxy.Director backend prefix w).2 in
  let twice := (proxy.Director backend prefix once).2 in
  http.req_Header (target twice) = http.req_Header (target once)
  ∧ http.Host (target twice) = http.Host (target once)
  ∧ url.Scheme (http.URL (target twice)) = url.Scheme (http.URL (target once))
  ∧ url.Host (http.URL (target twice)) = url.Host (http.URL (target once))
  ∧ url.RawQuery (http.URL (target twice))
    = url.RawQuery (http.URL (target once))
  ∧ http.Method (target twice) = http.Method (target once)
  ∧ http.Body (target twice) = http.Body (target once)
  ∧ url.Path (http.URL (target twice))
    = url.Path backend +:+
        strings.TrimPrefix
          (proxy.originalPath prefix (url.Path (http.URL (target once)))) "/".
Proof.
  intros once twice.
  pose proof (Director_result backend prefix once) as H2.
  pose proof (Director_result backend prefix w) as H1.
  unfold result in H1, H2. fold once in H1. fold twice in H2.
  rewrite H2. cbv zeta.
  cbn [http.req_Header http.Host http.URL http.Method http.Body
       url.Scheme url.Host url.RawQuery url.Path].
  rewrite H1. cbv zeta.
  cbn [http.req_Header http.Host http.URL http.Method http.Body
       url.Scheme url.Host url.RawQuery url.Path].
  by rewrite sanitized_idempotent.
Qed.

(** X9.  [Director] keeps the header keys canonical: when every key of
    the inbound header map is in canonical form, so is every key of the
    map it leaves. *)
Theorem Director_keeps_keys_canonical (backend : url.URL) (prefix : string)
    (w : World http.Request) :
  canonical_keys (http.req_Header (target w)) →
  canonical_keys (http.req_Header (result (proxy.Director backend prefix) w)).
Proof. rewrite Director_header. apply sanitized_canonical_keys. Qed.

Lemma Director_keeps_keys_canonical_witness :
  canonical_keys sample_headers
  ∧ canonical_keys
      (http.req_Header (result (proxy.Director example_backend "/api/")
                          (inbound "GET" "/api/users" "" sample_headers))).
Proof.
  split; [exact sample_headers_canonical|].
  exact (Director_keeps_keys_canonical example_backend "/api/"
           (inbound "GET" "/api/users" "" sample_headers)
           sample_headers_canonical).
Defined.

Lemma Director_log (backend : url.URL) (prefix : string)
    (w : World http.Request) :
  logged (proxy.Director backend prefix w).2 =
    (logged w ++
     ["Proxying request: " +:+ http.Method (target w) +:+ " "
      +:+ url.String (http.URL (target w)) +:+ " -> "
      +:+ url.String (http.URL (result (proxy.Director backend prefix) w))])
    ++ ["Path mapping: "
        +:+ proxy.originalPath prefix (url.Path (http.URL (target w)))
        +:+ " -> "
        +:+ url.Path (http.URL (result (proxy.Director backend prefix) w))].
Proof. reflexivity. Qed.

Lemma originalPath_self (prefix : string) :
  proxy.originalPath prefix prefix = "/".
Proof.
  pose proof (originalPath_prefixed prefix "") as H.
  by rewrite string_app_nil_r in H.
Qed.

(** X16.  The replacement of an empty remainder by ["/"] never shows in
    the outbound path, which is the base path followed by the inbound
    path without the prefix (when it starts with it) and without one
    leading slash; it shows in the logger, where a request for the
    prefix itself is reported as the mapping of ["/"] to the base
    path. *)
Theorem Director_empty_remainder (backend : url.URL) (prefix : string)
    (w : World http.Request) :
  let P := url.Path (http.URL (target w)) in
  let out := url.Path (http.URL (result (proxy.Director backend prefix) w)) in
  out = url.Path backend +:+
          strings.TrimPrefix
            (if strings.HasPrefix P prefix
             then strings.TrimPrefix P prefix else P) "/"
  ∧ (P = prefix →
     last (logged (proxy.Director backend prefix w).2)
     = Some ("Path mapping: / -> " +:+ url.Path backend)).
Proof.
  intros P out. subst out. rewrite Director_path. fold P. split.
  - destruct (strings.HasPrefix P prefix) eqn:E.
    + by rewrite (TrimPrefix_originalPath _ _ E).
    + by rewrite (originalPath_other _ _ E).
  - intros HP. rewrite Director_log, Director_path. fold P.
    rewrite HP, originalPath_self.
    change (strings.TrimPrefix "/" "/") with "". rewrite string_app_nil_r.
    by rewrite last_snoc.
Qed.

Lemma Director_empty_remainder_witness :
  let w := inbound "GET" "/api/" "" ∅ in
  url.Path (http.URL (target w)) = "/api/"
  ∧ last (logged (proxy.Director example_backend "/api/" w).2)
    = Some "Path mapping: / -> /v1/".
Proof.
  intros w. split; [reflexivity|].
  exact (proj2 (Director_empty_remainder example_backend "/api/" w) eq_refl).
Defined.

(** X15.  For a request without headers and without cookies the handler
    writes the request line and the heading of the header list, and
    nothing else, before it forwards the request. *)
Theorem Handler_bare_request
    (ServeHTTP : M (http.ResponseWriter * http.Request) unit)
    (Cookies : http.Request → list Cookie)
    (range_order : http.Header → list (string * list string))
    (w : World (http.ResponseWriter * http.Request)) :
  let r := (target w).2 in
  range_order (http.req_Header r) ≡ₚ map_to_list (http.req_Header r) →
  http.req_Header r = ∅ →
  Cookies r = [] →
  Handler ServeHTTP Cookies range_order w =
    ServeHTTP
      (mkWorld (target w)
         (logged w ++
          ["Received request: " +:+ http.Method r +:+ " "
           +:+ url.Path (http.URL r) +:+ " from " +:+ http.RemoteAddr r;
           "Request Headers:"])).
Proof.
  intros r Hperm Hempty Hcookies. subst r. rewrite Handler_run.
  rewrite Hempty in Hperm |- *. rewrite map_to_list_empty in Hperm.
  apply Permutation_nil_r in Hperm.
  unfold request_lines. by rewrite Hperm, Hcookies.
Qed.

Lemma Handler_bare_request_witness :
  let w := mkWorld (target fresh_writer,
                    target (inbound "GET" "/api/ping" "" ∅)) [] in
  map_to_list (∅ : http.Header) ≡ₚ map_to_list (∅ : http.Header)
  ∧ Handler (mret tt) (λ _, []) map_to_list w
    = (tt, mkWorld (target w)
             ["Received request: GET /api/ping from 192.0.2.1:40000";
              "Request Headers:"]).
Proof.
  intros w. split; [reflexivity|].
  exact (Handler_bare_request (mret tt) (λ _, []) map_to_list w
           (reflexivity _) eq_refl eq_refl).
Defined.
